(** * yt-chatbot side panel: tab reconciliation and question submission

    A shallow embedding of [chrome_extension/sidepanel.js].  The panel keeps
    one variable ([currentVideoId]) and four DOM elements (status line, chat
    history, question input, send button).  Two routines mutate them:
    [connectToCurrentTab], run after every [chrome.tabs.query], and
    [handleSend], run on a click or on the Enter key and suspended twice
    (at [fetch] and at [response.json()]).

    Strings are byte strings holding UTF-8 text.  Exceptions are explicit
    ([Completion]); the [await] points split [handleSend] into the pieces
    that the event loop runs atomically. *)

From Stdlib Require Import String Ascii List Bool Arith Lia.
Import ListNotations.
Open Scope string_scope.

(** ** The platform: strings, URLs, query strings, JSON values *)

Module JS.

(** Result of evaluating something that may throw (or of a promise that may
    reject). *)
Inductive Completion (A : Type) : Type :=
| Normal (a : A)
| Throw.
Arguments Normal {A} a.
Arguments Throw {A}.

Definition bytes (l : list nat) : string :=
  fold_right (fun n s => String (ascii_of_nat n) s) "" l.

Fixpoint string_rev (s : string) : string :=
  match s with
  | "" => ""
  | String c r => string_rev r ++ String c ""
  end.

(** [String.prototype.includes]: [includes pat s] is [s.includes(pat)]. *)
Fixpoint includes (searchString s : string) : bool :=
  if prefix searchString s then true
  else match s with
       | "" => false
       | String _ r => includes searchString r
       end.

(** ECMAScript WhiteSpace and LineTerminator code points, UTF-8 encoded:
    U+0009..U+000D, U+0020, U+00A0, U+1680, U+2000..U+200A, U+2028, U+2029,
    U+202F, U+205F, U+3000, U+FEFF. *)
Definition WhiteSpace : list string :=
  map bytes
    [ [9]; [10]; [11]; [12]; [13]; [32]; [194; 160]; [225; 154; 128];
      [226; 128; 128]; [226; 128; 129]; [226; 128; 130]; [226; 128; 131];
      [226; 128; 132]; [226; 128; 133]; [226; 128; 134]; [226; 128; 135];
      [226; 128; 136]; [226; 128; 137]; [226; 128; 138]; [226; 128; 168];
      [226; 128; 169]; [226; 128; 175]; [226; 129; 159]; [227; 128; 128];
      [239; 187; 191] ].

(** Number of bytes of the table entry that [s] starts with, 0 if none. *)
Fixpoint leading (table : list string) (s : string) : nat :=
  match table with
  | [] => 0
  | w :: rest => if prefix w s then String.length w else leading rest s
  end.

Fixpoint strip_from (table : list string) (skip : nat) (s : string) : string :=
  match s with
  | "" => ""
  | String _ r =>
      match skip with
      | S k => strip_from table k r
      | O => match leading table s with
             | O => s
             | S k => strip_from table k r
             end
      end
  end.

Definition trimStart (s : string) : string := strip_from WhiteSpace 0 s.

Definition trimEnd (s : string) : string :=
  string_rev (strip_from (map string_rev WhiteSpace) 0 (string_rev s)).

(** [String.prototype.trim]. *)
Definition trim (s : string) : string := trimEnd (trimStart s).

(** *** [new URL(href).search]

    Only what the search component depends on is modelled: the constructor
    throws when [href] has no scheme (there is no base URL); otherwise the
    query runs from the first [?] to the first [#] after it, and there is
    none when a [#] comes first.  A tab URL is already in serialized form,
    which the parser leaves as it is; host and port validation are not
    modelled. *)

Definition is_alpha (c : ascii) : bool :=
  let n := nat_of_ascii c in
  ((65 <=? n) && (n <=? 90) || (97 <=? n) && (n <=? 122))%nat.

Definition is_digit (c : ascii) : bool :=
  let n := nat_of_ascii c in ((48 <=? n) && (n <=? 57))%nat.

Definition is_scheme_char (c : ascii) : bool :=
  is_alpha c || is_digit c || Ascii.eqb c "+" || Ascii.eqb c "-" || Ascii.eqb c ".".

Fixpoint scheme_rest (s : string) : Completion string :=
  match s with
  | "" => Throw
  | String c r =>
      if Ascii.eqb c ":" then Normal r
      else if is_scheme_char c then scheme_rest r
      else Throw
  end.

Definition after_scheme (href : string) : Completion string :=
  match href with
  | "" => Throw
  | String c r => if is_alpha c then scheme_rest r else Throw
  end.

Fixpoint until_hash (s : string) : string :=
  match s with
  | "" => ""
  | String c r => if Ascii.eqb c "#" then "" else String c (until_hash r)
  end.

Fixpoint search_of (s : string) : string :=
  match s with
  | "" => ""
  | String c r =>
      if Ascii.eqb c "#" then ""
      else if Ascii.eqb c "?" then
        match until_hash r with
        | "" => ""
        | q => String "?" q
        end
      else search_of r
  end.

Definition URL_search (href : string) : Completion string :=
  match after_scheme href with
  | Normal rest => Normal (search_of rest)
  | Throw => Throw
  end.

(** *** [URLSearchParams]

    The application/x-www-form-urlencoded parser: split on [&], skip empty
    pieces, split each at its first [=], turn [+] into a space and
    percent-decode.  Decoded bytes are kept as they are (the replacement of
    ill-formed UTF-8 is not modelled). *)

Fixpoint split (sep : ascii) (s : string) : list string :=
  match s with
  | "" => [""]
  | String c r =>
      if Ascii.eqb c sep then "" :: split sep r
      else match split sep r with
           | [] => [String c ""]
           | w :: ws => String c w :: ws
           end
  end.

Fixpoint name_value (s : string) : string * string :=
  match s with
  | "" => ("", "")
  | String c r =>
      if Ascii.eqb c "=" then ("", r)
      else let (n, v) := name_value r in (String c n, v)
  end.

Definition plus_to_space (s : string) : string :=
  string_of_list_ascii
    (map (fun c => if Ascii.eqb c "+" then " "%char else c) (list_ascii_of_string s)).

Definition hex_value (c : ascii) : option nat :=
  let n := nat_of_ascii c in
  if is_digit c then Some (n - 48)
  else if ((65 <=? n) && (n <=? 70))%nat then Some (n - 55)
  else if ((97 <=? n) && (n <=? 102))%nat then Some (n - 87)
  else None.

Fixpoint percent_decode (s : string) : string :=
  match s with
  | "" => ""
  | String c r =>
      if Ascii.eqb c "%" then
        match r with
        | String h (String l r') =>
            match hex_value h, hex_value l with
            | Some a, Some b => String (ascii_of_nat (16 * a + b)) (percent_decode r')
            | _, _ => String c (percent_decode r)
            end
        | _ => String c (percent_decode r)
        end
      else String c (percent_decode r)
  end.

Definition form_decode (s : string) : string := percent_decode (plus_to_space s).

Definition URLSearchParams (init : string) : list (string * string) :=
  let init := match init with
              | String c r => if Ascii.eqb c "?" then r else init
              | "" => ""
              end in
  map (fun piece => let (n, v) := name_value piece in (form_decode n, form_decode v))
      (filter (fun piece => negb (piece =? "")) (split "&" init)).

(** [URLSearchParams.prototype.get]: the first value under [name], or null. *)
Fixpoint get (params : list (string * string)) (name : string) : option string :=
  match params with
  | [] => None
  | (n, v) :: rest => if n =? name then Some v else get rest name
  end.

(** *** Values that [JSON.parse] produces (and [undefined])

    A number is kept as its decimal rendering together with whether it is
    non-zero, which is all that [ToString] and [ToBoolean] look at. *)
#[warnings="-register-all"] Inductive JSValue : Type :=
| JSUndefined
| JSNull
| JSBoolean (b : bool)
| JSNumber (nonzero : bool) (shown : string)
| JSString (s : string)
| JSArray (elements : list JSValue)
| JSObject (props : list (string * JSValue)).

Definition ToBoolean (v : JSValue) : bool :=
  match v with
  | JSUndefined | JSNull => false
  | JSBoolean b => b
  | JSNumber nonzero _ => nonzero
  | JSString s => negb (s =? "")
  | JSArray _ | JSObject _ => true
  end.

Fixpoint own (props : list (string * JSValue)) (key : string) : option JSValue :=
  match props with
  | [] => None
  | (k, v) :: rest => if k =? key then Some v else own rest key
  end.

(** [v.key] for a key that no built-in prototype defines (["answer"],
    ["error"]): reading a property of null or undefined throws. *)
Definition Get (v : JSValue) (key : string) : Completion JSValue :=
  match v with
  | JSUndefined | JSNull => Throw
  | JSObject props => match own props key with
                      | Some x => Normal x
                      | None => Normal JSUndefined
                      end
  | _ => Normal JSUndefined
  end.

(** [ToString]: a parsed object prints as [[object Object]] unless it has an
    own ["toString"] property, which is never callable and makes the
    conversion throw; an array joins its elements with commas. *)
Fixpoint ToString (v : JSValue) : Completion string :=
  match v with
  | JSUndefined => Normal "undefined"
  | JSNull => Normal "null"
  | JSBoolean b => Normal (if b then "true" else "false")
  | JSNumber _ shown => Normal shown
  | JSString s => Normal s
  | JSArray elements =>
      (fix join (l : list JSValue) : Completion string :=
         match l with
         | [] => Normal ""
         | x :: rest =>
             let first := match x with
                          | JSUndefined | JSNull => Normal ""
                          | _ => ToString x
                          end in
             match first, rest with
             | Throw, _ => Throw
             | Normal a, [] => Normal a
             | Normal a, _ => match join rest with
                              | Normal b => Normal (a ++ "," ++ b)
                              | Throw => Throw
                              end
             end
         end) elements
  | JSObject props => match own props "toString" with
                      | Some _ => Throw
                      | None => Normal "[object Object]"
                      end
  end.

(** [a || b]. *)
Definition or_else (a b : JSValue) : JSValue := if ToBoolean a then a else b.

(** *** [JSON.stringify] *)

Definition hex_digit (n : nat) : ascii :=
  ascii_of_nat (if (n <? 10)%nat then 48 + n else 87 + n).

Definition quote_byte (c : ascii) : string :=
  let n := nat_of_ascii c in
  if (n =? 8)%nat then "\b"
  else if (n =? 9)%nat then "\t"
  else if (n =? 10)%nat then "\n"
  else if (n =? 12)%nat then "\f"
  else if (n =? 13)%nat then "\r"
  else if (n =? 34)%nat then String "\" (String c "")
  else if (n =? 92)%nat then "\\"
  else if (n <? 32)%nat then "\u00" ++ String (hex_digit (n / 16)) (String (hex_digit (n mod 16)) "")
  else String c "".

Definition QuoteJSONString (s : string) : string :=
  let dq := String (ascii_of_nat 34) "" in
  dq ++ String.concat "" (map quote_byte (list_ascii_of_string s)) ++ dq.

(** [None] stands for [undefined]: such a property is left out of an object
    and printed as [null] in an array. *)
Fixpoint SerializeJSONProperty (v : JSValue) : option string :=
  match v with
  | JSUndefined => None
  | JSNull => Some "null"
  | JSBoolean b => Some (if b then "true" else "false")
  | JSNumber _ shown => Some shown
  | JSString s => Some (QuoteJSONString s)
  | JSArray elements =>
      Some ("[" ++ String.concat ","
                     ((fix each (l : list JSValue) : list string :=
                         match l with
                         | [] => []
                         | x :: rest =>
                             match SerializeJSONProperty x with
                             | Some t => t
                             | None => "null"
                             end :: each rest
                         end) elements) ++ "]")
  | JSObject props =>
      Some ("{" ++ String.concat ","
                     ((fix each (l : list (string * JSValue)) : list string :=
                         match l with
                         | [] => []
                         | (k, x) :: rest =>
                             match SerializeJSONProperty x with
                             | Some t => (QuoteJSONString k ++ ":" ++ t) :: each rest
                             | None => each rest
                             end
                         end) props) ++ "}")
  end.

Definition JSON_stringify (v : JSValue) : string :=
  match SerializeJSONProperty v with
  | Some t => t
  | None => "undefined"
  end.

End JS.

Import JS.

(** ** The side panel *)

Module SidePanel.

(** *** The document *)

Inductive Content : Type :=
| Text (data : string)
| Span (classes : list string) (data : string).

(** A [div] of the chat history; [id] is empty when the attribute is unset. *)
Record Element : Type := {
  classList : list string;
  id : string;
  content : Content
}.

(** The variables of the [DOMContentLoaded] closure: [currentVideoId] and,
    of the four elements it looks up, the properties that the script reads
    or writes.  [chatHistory] is the list of child elements of
    [#chat-history] (whitespace-only text nodes are left out);
    [inputEl_focused] says whether the input is the active element.
    [scrollTop] depends on layout and is not modelled. *)
Record Panel : Type := {
  currentVideoId : option string;
  statusEl_textContent : string;
  statusEl_className : string;
  inputEl_value : string;
  inputEl_disabled : bool;
  inputEl_focused : bool;
  sendBtn_disabled : bool;
  chatHistory : list Element
}.

Definition set_currentVideoId (v : option string) (p : Panel) : Panel :=
  {| currentVideoId := v;
     statusEl_textContent := statusEl_textContent p;
     statusEl_className := statusEl_className p;
     inputEl_value := inputEl_value p;
     inputEl_disabled := inputEl_disabled p;
     inputEl_focused := inputEl_focused p;
     sendBtn_disabled := sendBtn_disabled p;
     chatHistory := chatHistory p |}.

Definition set_statusEl_textContent (s : string) (p : Panel) : Panel :=
  {| currentVideoId := currentVideoId p;
     statusEl_textContent := s;
     statusEl_className := statusEl_className p;
     inputEl_value := inputEl_value p;
     inputEl_disabled := inputEl_disabled p;
     inputEl_focused := inputEl_focused p;
     sendBtn_disabled := sendBtn_disabled p;
     chatHistory := chatHistory p |}.

Definition set_statusEl_className (s : string) (p : Panel) : Panel :=
  {| currentVideoId := currentVideoId p;
     statusEl_textContent := statusEl_textContent p;
     statusEl_className := s;
     inputEl_value := inputEl_value p;
     inputEl_disabled := inputEl_disabled p;
     inputEl_focused := inputEl_focused p;
     sendBtn_disabled := sendBtn_disabled p;
     chatHistory := chatHistory p |}.

Definition set_inputEl_value (s : string) (p : Panel) : Panel :=
  {| currentVideoId := currentVideoId p;
     statusEl_textContent := statusEl_textContent p;
     statusEl_className := statusEl_className p;
     inputEl_value := s;
     inputEl_disabled := inputEl_disabled p;
     inputEl_focused := inputEl_focused p;
     sendBtn_disabled := sendBtn_disabled p;
     chatHistory := chatHistory p |}.

(** A disabled input cannot stay the active element. *)
Definition set_inputEl_disabled (b : bool) (p : Panel) : Panel :=
  {| currentVideoId := currentVideoId p;
     statusEl_textContent := statusEl_textContent p;
     statusEl_className := statusEl_className p;
     inputEl_value := inputEl_value p;
     inputEl_disabled := b;
     inputEl_focused := if b then false else inputEl_focused p;
     sendBtn_disabled := sendBtn_disabled p;
     chatHistory := chatHistory p |}.

Definition set_sendBtn_disabled (b : bool) (p : Panel) : Panel :=
  {| currentVideoId := currentVideoId p;
     statusEl_textContent := statusEl_textContent p;
     statusEl_className := statusEl_className p;
     inputEl_value := inputEl_value p;
     inputEl_disabled := inputEl_disabled p;
     inputEl_focused := inputEl_focused p;
     sendBtn_disabled := b;
     chatHistory := chatHistory p |}.

Definition set_chatHistory (l : list Element) (p : Panel) : Panel :=
  {| currentVideoId := currentVideoId p;
     statusEl_textContent := statusEl_textContent p;
     statusEl_className := statusEl_className p;
     inputEl_value := inputEl_value p;
     inputEl_disabled := inputEl_disabled p;
     inputEl_focused := inputEl_focused p;
     sendBtn_disabled := sendBtn_disabled p;
     chatHistory := l |}.

(** [inputEl.focus()]: nothing happens on a disabled input. *)
Definition inputEl_focus (p : Panel) : Panel :=
  {| currentVideoId := currentVideoId p;
     statusEl_textContent := statusEl_textContent p;
     statusEl_className := statusEl_className p;
     inputEl_value := inputEl_value p;
     inputEl_disabled := inputEl_disabled p;
     inputEl_focused := negb (inputEl_disabled p);
     sendBtn_disabled := sendBtn_disabled p;
     chatHistory := chatHistory p |}.

(** *** Statements: panel state and exceptions *)

Definition Eff (A : Type) : Type := Panel -> Completion A * Panel.

Definition ret {A} (a : A) : Eff A := fun p => (Normal a, p).

Definition bind {A B} (m : Eff A) (k : A -> Eff B) : Eff B :=
  fun p => match m p with
           | (Normal a, p') => k a p'
           | (Throw, p') => (Throw, p')
           end.

Definition lift {A} (c : Completion A) : Eff A := fun p => (c, p).

Definition assign (f : Panel -> Panel) : Eff unit := fun p => (Normal tt, f p).

Definition read {A} (f : Panel -> A) : Eff A := fun p => (Normal (f p), p).

Declare Scope eff_scope.
Delimit Scope eff_scope with eff.
Notation "x <- m ;; k" := (bind m (fun x => k))
  (at level 61, m at next level, right associativity) : eff_scope.
Notation "m ;; k" := (bind m (fun _ => k))
  (at level 61, right associativity) : eff_scope.
Open Scope eff_scope.

(** [try { body } catch (error) { handler } finally { final }]. *)
Definition try_catch_finally (body handler final : Eff unit) : Eff unit :=
  fun p =>
    let (r, p1) := match body p with
                   | (Normal tt, p') => (Normal tt, p')
                   | (Throw, p') => handler p'
                   end in
    match final p1 with
    | (Normal tt, p2) => (r, p2)
    | (Throw, p2) => (Throw, p2)
    end.

Definition state_after {A} (m : Eff A) (p : Panel) : Panel := snd (m p).

(** *** Tab reconciliation *)

(** What [chrome.tabs.query] reports of a tab; [url] is absent without the
    permission to see it. *)
Record Tab : Type := { url : option string }.

Definition spaces (n : nat) : string := bytes (repeat 32 n).

(** The text of the [div] in the template literal of [connectToCurrentTab],
    with its line breaks and indentation. *)
Definition greeting_text : string :=
  bytes [10] ++ spaces 14
  ++ "Hello! I'm ready to answer questions about this video."
  ++ bytes [10] ++ spaces 12.

Definition greeting : Element :=
  {| classList := ["message"; "bot-message"]; id := ""; content := Text greeting_text |}.

Definition handleDisconnect (reason : string) : Eff unit :=
  assign (set_currentVideoId None) ;;
  assign (set_statusEl_textContent reason) ;;
  assign (set_statusEl_className "status error") ;;
  assign (set_inputEl_disabled true) ;;
  assign (set_sendBtn_disabled true).

(** A string or null as a value. *)
Definition as_value (v : option string) : JSValue :=
  match v with
  | Some s => JSString s
  | None => JSNull
  end.

(** [a === b] on values that are a string or null. *)
Definition strict_eq (a b : option string) : bool :=
  match a, b with
  | Some x, Some y => x =? y
  | None, None => true
  | _, _ => false
  end.

(** The body of [connectToCurrentTab] after [await chrome.tabs.query];
    [tab] is the first element of the result, if any. *)
Definition connectToCurrentTab (tab : option Tab) : Eff unit :=
  match tab with
  | Some {| url := Some tab_url |} =>
      if negb (tab_url =? "") && includes "youtube.com/watch" tab_url then
        search <- lift (URL_search tab_url) ;;
        let urlParams := URLSearchParams search in
        let videoId := get urlParams "v" in
        if ToBoolean (as_value videoId) then
          current <- read currentVideoId ;;
          if negb (strict_eq videoId current) then
            assign (set_currentVideoId videoId) ;;
            assign (set_statusEl_textContent "Connected") ;;
            assign (set_statusEl_className "status connected") ;;
            assign (set_inputEl_disabled false) ;;
            assign (set_sendBtn_disabled false) ;;
            assign (set_chatHistory [greeting])
          else ret tt
        else handleDisconnect "No Video ID"
      else handleDisconnect "Not YouTube"
  | _ => handleDisconnect "Not YouTube"
  end.

(** *** The chat history *)

(** The value a [textContent] setter stores: null and undefined give the
    empty string, anything else is converted with [ToString]. *)
Definition DOMString (v : JSValue) : Completion string :=
  match v with
  | JSUndefined | JSNull => Normal ""
  | _ => ToString v
  end.

Definition message (text sender : string) : Element :=
  {| classList := ["message"; if sender =? "user" then "user-message" else "bot-message"];
     id := "";
     content := Text text |}.

(** [appendMessage] and [appendLoading] end with
    [chatHistory.scrollTop = chatHistory.scrollHeight], which moves the view
    to the bottom of the history; the scroll position is no field of
    [Panel], so that assignment has no counterpart here. *)
Definition appendMessage (text : JSValue) (sender : string) : Eff unit :=
  data <- lift (DOMString text) ;;
  assign (fun p => set_chatHistory (chatHistory p ++ [message data sender]) p).

Definition loading : Element :=
  {| classList := ["message"; "bot-message"];
     id := "loading-msg";
     content := Span ["loading-dots"] "Thinking" |}.

Definition appendLoading : Eff unit :=
  assign (fun p => set_chatHistory (chatHistory p ++ [loading]) p).

(** Drops the first element whose id is [name], as
    [document.getElementById(name)] followed by [remove()] does.  No other
    element of the page has the id [loading-msg]. *)
Fixpoint remove_by_id (name : string) (l : list Element) : list Element :=
  match l with
  | [] => []
  | e :: rest => if id e =? name then rest else e :: remove_by_id name rest
  end.

Definition removeLoading : Eff unit :=
  assign (fun p => set_chatHistory (remove_by_id "loading-msg" (chatHistory p)) p).

(** *** Submitting a question *)

Record Request : Type := {
  resource : string;
  method : string;
  headers : list (string * string);
  body : string
}.

(** How the request of one submission ends: [fetch] rejects, or it fulfils
    with a response whose [ok] flag is known at once and whose
    [response.json()] later fulfils with the parsed body or rejects. *)
Inductive FetchOutcome : Type :=
| Rejected
| Fulfilled (ok : bool) (json : Completion JSValue).

(** [handleSend] up to its first [await]: the guard, the user message, the
    disabled controls, the placeholder and the call of [fetch].  The result
    is the request passed to [fetch], or [None] when the guard returns. *)
Definition handleSend_begin : Eff (option Request) :=
  value <- read inputEl_value ;;
  let question := trim value in
  current <- read currentVideoId ;;
  if (question =? "") || negb (ToBoolean (as_value current)) then ret None
  else
    appendMessage (JSString question) "user" ;;
    assign (set_inputEl_value "") ;;
    assign (set_inputEl_disabled true) ;;
    assign (set_sendBtn_disabled true) ;;
    appendLoading ;;
    ret (Some {| resource := "http://localhost:5000/chat";
                 method := "POST";
                 headers := [("Content-Type", "application/json")];
                 body := JSON_stringify
                           (JSObject [("video_id", as_value current);
                                      ("question", JSString question)]) |}).

(** ['Error: ' + v]. *)
Definition error_text (v : JSValue) : Completion string :=
  match ToString v with
  | Normal s => Normal ("Error: " ++ s)
  | Throw => Throw
  end.

(** The [try] block once both promises are settled. *)
Definition handleSend_try (outcome : FetchOutcome) : Eff unit :=
  match outcome with
  | Rejected => lift Throw
  | Fulfilled ok json =>
      data <- lift json ;;
      removeLoading ;;
      if ok then
        answer <- lift (Get data "answer") ;;
        appendMessage answer "bot"
      else
        error <- lift (Get data "error") ;;
        text <- lift (error_text (or_else error (JSString "Server error"))) ;;
        appendMessage (JSString text) "bot"
  end.

Definition handleSend_catch : Eff unit :=
  removeLoading ;;
  appendMessage
    (JSString "Error: Could not connect to server. Make sure app.py is running.") "bot".

Definition handleSend_finally : Eff unit :=
  assign (set_inputEl_disabled false) ;;
  assign (set_sendBtn_disabled false) ;;
  assign inputEl_focus.

(** [handleSend] from the point where its request is settled. *)
Definition handleSend_settle (outcome : FetchOutcome) : Eff unit :=
  try_catch_finally (handleSend_try outcome) handleSend_catch handleSend_finally.

(** One whole call of [handleSend] with nothing else running in between:
    the final panel and the requests passed to [fetch]. *)
Definition handleSend (outcome : FetchOutcome) (p : Panel) : Panel * list Request :=
  match handleSend_begin p with
  | (Normal (Some request), p') => (state_after (handleSend_settle outcome) p', [request])
  | (_, p') => (p', [])
  end.

(** Reconciliations one after the other, each with the tab it observed. *)
Definition reconcile (tab : option Tab) (p : Panel) : Panel :=
  state_after (connectToCurrentTab tab) p.

Definition reconcile_all (tabs : list (option Tab)) (p : Panel) : Panel :=
  fold_left (fun q tab => reconcile tab q) tabs p.

End SidePanel.

Import SidePanel.

(** ** The event loop

    Everything runs on one thread: a listener or the continuation of an
    [await] runs to its next [await] before anything else does.  A state of
    the system is the panel together with what is suspended: calls of
    [connectToCurrentTab] waiting for [chrome.tabs.query] and calls of
    [handleSend] waiting for [fetch] or for [response.json()]. *)

Module EventLoop.

Inductive Suspended : Type :=
| AwaitingFetch
| AwaitingJson (ok : bool).

Record System : Type := {
  panel : Panel;
  queries : nat;
  inflight : list Suspended;
  fetched : list Request
}.

Inductive Event : Type :=
| TabUpdated (status : option string) (active : bool)
| TabActivated
| QueryFulfilled (tab : option Tab)
| Typed (value : string)
| SendClicked
| KeyPressed (key : string)
| FetchSettled (i : nat) (response : Completion bool)
| JsonSettled (i : nat) (json : Completion JSValue).

(** The panel as the script finds it once the page is loaded, with one
    call of [connectToCurrentTab] under way.  [page] is the document that
    the HTML file describes. *)
Definition start (page : Panel) : System :=
  {| panel := set_currentVideoId None page;
     queries := 1;
     inflight := [];
     fetched := [] |}.

Definition with_panel (p : Panel) (s : System) : System :=
  {| panel := p; queries := queries s; inflight := inflight s; fetched := fetched s |}.

Definition with_queries (n : nat) (s : System) : System :=
  {| panel := panel s; queries := n; inflight := inflight s; fetched := fetched s |}.

Definition with_inflight (l : list Suspended) (s : System) : System :=
  {| panel := panel s; queries := queries s; inflight := l; fetched := fetched s |}.

(** A call of [handleSend] by a listener. *)
Definition call_handleSend (s : System) : System :=
  match handleSend_begin (panel s) with
  | (Normal (Some request), p) =>
      {| panel := p;
         queries := queries s;
         inflight := inflight s ++ [AwaitingFetch];
         fetched := fetched s ++ [request] |}
  | (_, p) => with_panel p s
  end.

Fixpoint remove_nth {A} (i : nat) (l : list A) : list A :=
  match l, i with
  | [], _ => []
  | _ :: rest, O => rest
  | x :: rest, S j => x :: remove_nth j rest
  end.

Fixpoint replace_nth {A} (i : nat) (y : A) (l : list A) : list A :=
  match l, i with
  | [], _ => []
  | _ :: rest, O => y :: rest
  | x :: rest, S j => x :: replace_nth j y rest
  end.

(** One turn of the event loop; [None] when the event cannot happen in [s]:
    a disabled control receives neither clicks nor keys, and only what is
    suspended can be resumed. *)
Definition step (e : Event) (s : System) : option System :=
  match e with
  | TabUpdated status active =>
      match status with
      | Some st => if (st =? "complete") && active
                   then Some (with_queries (S (queries s)) s)
                   else Some s
      | None => Some s
      end
  | TabActivated => Some (with_queries (S (queries s)) s)
  | QueryFulfilled tab =>
      match queries s with
      | O => None
      | S n => Some (with_queries n (with_panel (reconcile tab (panel s)) s))
      end
  | Typed value =>
      if inputEl_disabled (panel s) then None
      else Some (with_panel (set_inputEl_value value (panel s)) s)
  | SendClicked =>
      if sendBtn_disabled (panel s) then None else Some (call_handleSend s)
  | KeyPressed key =>
      if inputEl_disabled (panel s) then None
      else if key =? "Enter" then Some (call_handleSend s) else Some s
  | FetchSettled i response =>
      match nth_error (inflight s) i, response with
      | Some AwaitingFetch, Normal ok =>
          Some (with_inflight (replace_nth i (AwaitingJson ok) (inflight s)) s)
      | Some AwaitingFetch, Throw =>
          Some (with_inflight (remove_nth i (inflight s))
                  (with_panel (state_after (handleSend_settle Rejected) (panel s)) s))
      | _, _ => None
      end
  | JsonSettled i json =>
      match nth_error (inflight s) i with
      | Some (AwaitingJson ok) =>
          Some (with_inflight (remove_nth i (inflight s))
                  (with_panel (state_after (handleSend_settle (Fulfilled ok json)) (panel s)) s))
      | _ => None
      end
  end.

Fixpoint run (events : list Event) (s : System) : option System :=
  match events with
  | [] => Some s
  | e :: rest => match step e s with
                 | Some s' => run rest s'
                 | None => None
                 end
  end.

(** A reconciliation that takes the connecting branch
    ([videoId !== currentVideoId]): it makes current a video that was not,
    be it another one than the current, or any one, the one watched before
    included, when [currentVideoId] is null as after a disconnect. *)
Definition switches_video (tab : option Tab) (p : Panel) : bool :=
  match currentVideoId (reconcile tab p) with
  | Some videoId => negb (strict_eq (Some videoId) (currentVideoId p))
  | None => false
  end.

(** No reconciliation takes the connecting branch while a request is
    outstanding. *)
Definition calm (e : Event) (s : System) : bool :=
  match e, inflight s with
  | QueryFulfilled tab, _ :: _ => negb (switches_video tab (panel s))
  | _, _ => true
  end.

Fixpoint run_calm (events : list Event) (s : System) : option System :=
  match events with
  | [] => Some s
  | e :: rest => if calm e s
                 then match step e s with
                      | Some s' => run_calm rest s'
                      | None => None
                      end
                 else None
  end.

End EventLoop.

Import EventLoop.

(** ** What the specification talks about *)

(** The tab shows a page whose URL contains [youtube.com/watch] and has the
    search component [search]. *)
Definition watch_page (tab : option Tab) (search : string) : Prop :=
  exists tab_url, tab = Some {| url := Some tab_url |}
                  /\ includes "youtube.com/watch" tab_url = true
                  /\ URL_search tab_url = Normal search.

(** The value of the [v] parameter, if the search component has one. *)
Definition video_identifier (search : string) : option string :=
  get (URLSearchParams search) "v".

(** The tab shows a watch page with the (non-empty) video identifier. *)
Definition observes_video (tab : option Tab) (videoId : string) : Prop :=
  exists search, watch_page tab search
                 /\ video_identifier search = Some videoId
                 /\ videoId <> "".

(** The tab's URL, if it has one, does not contain [youtube.com/watch]. *)
Definition not_youtube (tab : option Tab) : Prop :=
  forall tab_url, tab = Some {| url := Some tab_url |} ->
                  includes "youtube.com/watch" tab_url = false.

(** Session status. *)
Definition Connected (p : Panel) (videoId : string) : Prop :=
  currentVideoId p = Some videoId /\ videoId <> "".

Definition Disconnected (p : Panel) (reason : string) : Prop :=
  currentVideoId p = None
  /\ statusEl_textContent p = reason
  /\ statusEl_className p = "status error".

Definition controls_enabled (p : Panel) : Prop :=
  inputEl_disabled p = false /\ sendBtn_disabled p = false.

Definition controls_disabled (p : Panel) : Prop :=
  inputEl_disabled p = true /\ sendBtn_disabled p = true.

Definition is_placeholder (e : Element) : bool := id e =? "loading-msg".

(** The message log: the chat history without placeholders. *)
Definition messages (p : Panel) : list Element :=
  filter (fun e => negb (is_placeholder e)) (chatHistory p).

Definition placeholders (p : Panel) : nat :=
  length (filter is_placeholder (chatHistory p)).

Definition could_not_connect : string :=
  "Could not connect to server. Make sure app.py is running.".

(** The text of the bot message that answers a submission, by how its
    request ended: the answer of a success response; [Error: ] and the
    server's message, or [Server error] when it gives none, for a failure
    response; [Error: ] and the could-not-connect message when the service
    cannot be reached, when the body is not JSON, or when the body cannot be
    used (it is null, or what it holds has no string form). *)
Inductive reply_text : FetchOutcome -> string -> Prop :=
| reply_answer data answer text :
    Get data "answer" = Normal answer ->
    DOMString answer = Normal text ->
    reply_text (Fulfilled true (Normal data)) text
| reply_server_error data error text :
    Get data "error" = Normal error ->
    ToBoolean error = true ->
    ToString error = Normal text ->
    reply_text (Fulfilled false (Normal data)) ("Error: " ++ text)
| reply_server_error_fallback data error :
    Get data "error" = Normal error ->
    ToBoolean error = false ->
    reply_text (Fulfilled false (Normal data)) "Error: Server error"
| reply_unreachable :
    reply_text Rejected ("Error: " ++ could_not_connect)
| reply_not_json ok :
    reply_text (Fulfilled ok Throw) ("Error: " ++ could_not_connect)
| reply_unusable_answer data :
    (Get data "answer" = Throw
     \/ exists answer, Get data "answer" = Normal answer /\ DOMString answer = Throw) ->
    reply_text (Fulfilled true (Normal data)) ("Error: " ++ could_not_connect)
| reply_unusable_error data :
    (Get data "error" = Throw
     \/ exists error, Get data "error" = Normal error
                      /\ ToBoolean error = true /\ ToString error = Throw) ->
    reply_text (Fulfilled false (Normal data)) ("Error: " ++ could_not_connect).

(** The request ended in an error: no response, or a status that is not a
    success. *)
Definition failed (outcome : FetchOutcome) : Prop :=
  outcome = Rejected \/ exists json, outcome = Fulfilled false json.

(** The panel after a submission is answered: [history] followed by the bot
    message, both controls enabled, the input focused. *)
Definition answered (text : string) (history : list Element) (p : Panel) : Panel :=
  {| currentVideoId := currentVideoId p;
     statusEl_textContent := statusEl_textContent p;
     statusEl_className := statusEl_className p;
     inputEl_value := inputEl_value p;
     inputEl_disabled := false;
     inputEl_focused := true;
     sendBtn_disabled := false;
     chatHistory := history ++ [message text "bot"] |}.

(** Single flight: at most one request is outstanding, and while one is,
    both controls are disabled. *)
Definition single_flight (s : System) : Prop :=
  length (inflight s) <= 1
  /\ (inflight s <> [] -> controls_disabled (panel s)).

(** The invariant on placeholders: there is at most one, and while there
    is one both controls are disabled and a request is outstanding. *)
Definition placeholder_invariant (s : System) : Prop :=
  placeholders (panel s) <= 1
  /\ (placeholders (panel s) = 1 ->
      controls_disabled (panel s) /\ inflight s <> []).

(** Every reconciliation in [events] observes the video [videoId]. *)
Definition reconciliations_observe (videoId : string) (events : list Event) : Prop :=
  forall tab, In (QueryFulfilled tab) events -> observes_video tab videoId.

(** No reconciliation runs in [events]. *)
Definition no_reconciliation (events : list Event) : Prop :=
  forall tab, ~ In (QueryFulfilled tab) events.

(** A page with an empty chat history and disabled controls, and the tab
    with a given URL, to run the panel on. *)
Definition page0 : Panel :=
  {| currentVideoId := None;
     statusEl_textContent := "";
     statusEl_className := "status";
     inputEl_value := "";
     inputEl_disabled := true;
     inputEl_focused := false;
     sendBtn_disabled := true;
     chatHistory := [] |}.

Definition tab_of (tab_url : string) : option Tab := Some {| url := Some tab_url |}.

(** The panel connected to a video, with a question typed in. *)
Definition asked (question : string) : Panel :=
  set_inputEl_value question
    (reconcile (tab_of "https://www.youtube.com/watch?v=abc123") page0).

Definition tutorial_answer : FetchOutcome :=
  Fulfilled true (Normal (JSObject [("answer", JSString "It's a tutorial.")])).

Definition quota_error : FetchOutcome :=
  Fulfilled false (Normal (JSObject [("error", JSString "Quota exceeded")])).

(** The user asks about one video and moves to another before the answer
    has come; then asks again. *)
Definition switch_during_request : list Event :=
  [ QueryFulfilled (tab_of "https://www.youtube.com/watch?v=abc123");
    Typed "Why?";
    SendClicked;
    TabUpdated (Some "complete") true;
    QueryFulfilled (tab_of "https://www.youtube.com/watch?v=xyz789") ].

Definition ask_again : list Event := [ Typed "And?"; KeyPressed "Enter" ].

(** The user asks about a video, leaves YouTube and comes back to the same
    video before the answer has come. *)
Definition return_during_request : list Event :=
  [ QueryFulfilled (tab_of "https://www.youtube.com/watch?v=abc123");
    Typed "Why?";
    SendClicked;
    TabUpdated (Some "complete") true;
    QueryFulfilled (tab_of "https://example.com");
    TabActivated;
    QueryFulfilled (tab_of "https://www.youtube.com/watch?v=abc123") ].

(** The user asks, the answer comes, the user asks again. *)
Definition two_questions : list Event :=
  [ QueryFulfilled (tab_of "https://www.youtube.com/watch?v=abc123");
    Typed "Why?";
    SendClicked;
    TabActivated;
    QueryFulfilled (tab_of "https://www.youtube.com/watch?v=abc123");
    FetchSettled 0 (Normal true);
    JsonSettled 0 (Normal (JSObject [("answer", JSString "It's a tutorial.")]));
    Typed "And?";
    KeyPressed "Enter" ].

(** The user asks one question. *)
Definition ask_once : list Event :=
  [ QueryFulfilled (tab_of "https://www.youtube.com/watch?v=abc123");
    Typed "Why?";
    SendClicked ].

(** A question is asked and answered while the tab is reconciled twice on
    the video the panel is connected to. *)
Definition asking : System :=
  {| panel := asked "Why?"; queries := 2; inflight := []; fetched := [] |}.

Definition reconciled_while_asking : list Event :=
  [ SendClicked;
    QueryFulfilled (tab_of "https://www.youtube.com/watch?v=abc123");
    FetchSettled 0 (Normal true);
    QueryFulfilled (tab_of "https://www.youtube.com/watch?v=abc123");
    JsonSettled 0 (Normal (JSObject [("answer", JSString "It's a tutorial.")])) ].

(** The answer to a question arrives after the tab has left YouTube. *)
Definition answered_after_leaving : list Event :=
  [ FetchSettled 0 (Normal true);
    JsonSettled 0 (Normal (JSObject [("answer", JSString "It's a tutorial.")])) ].

(** ** Further notions: sessions, requests, accounting *)

(** The status line agrees with the current video: whenever there is one it
    is not empty and the line says Connected. *)
Definition status_consistent (p : Panel) : Prop :=
  forall videoId, currentVideoId p = Some videoId ->
                  videoId <> ""
                  /\ statusEl_textContent p = "Connected"
                  /\ statusEl_className p = "status connected".

(** What the panel shows of the session: the video and the status line. *)
Definition session (p : Panel) : option string * string * string :=
  (currentVideoId p, statusEl_textContent p, statusEl_className p).

(** The tab has no watch-page URL, or one whose search component can be
    read: the cases in which [connectToCurrentTab] runs to its end. *)
Definition readable (tab : option Tab) : Prop :=
  not_youtube tab \/ exists search, watch_page tab search.

(** While connected, the chat history begins with the greeting. *)
Definition greeting_first (p : Panel) : Prop :=
  forall videoId, currentVideoId p = Some videoId ->
                  exists rest, chatHistory p = greeting :: rest.

(** A placeholder, when there is one, is the last element of the chat
    history, and the controls are then disabled. *)
Definition placeholder_last (p : Panel) : Prop :=
  placeholders p = 0
  \/ (controls_disabled p
      /\ exists history,
           chatHistory p = (history ++ [loading])%list
           /\ length (filter is_placeholder history) = 0).

(** The events that call [handleSend], those that call
    [connectToCurrentTab], and those that resume it. *)
Definition is_submission (e : Event) : bool :=
  match e with
  | SendClicked => true
  | KeyPressed key => key =? "Enter"
  | _ => false
  end.

Definition is_trigger (e : Event) : bool :=
  match e with
  | TabActivated => true
  | TabUpdated (Some status) active => (status =? "complete") && active
  | _ => false
  end.

Definition is_reconciliation (e : Event) : bool :=
  match e with
  | QueryFulfilled _ => true
  | _ => false
  end.

(** A request as [handleSend] builds it, for some video and some question,
    neither of them empty. *)
Definition chat_request (r : Request) : Prop :=
  resource r = "http://localhost:5000/chat"
  /\ method r = "POST"
  /\ headers r = [("Content-Type", "application/json")]
  /\ exists videoId question,
       videoId <> "" /\ question <> ""
       /\ body r = JSON_stringify (JSObject [("video_id", JSString videoId);
                                             ("question", JSString question)]).

(** A response with a success status whose body has no [answer], and one
    whose body is [null]. *)
Definition no_answer : FetchOutcome :=
  Fulfilled true (Normal (JSObject [("reply", JSString "It's a tutorial.")])).

Definition null_body : FetchOutcome := Fulfilled true (Normal JSNull).

(** ** Reconciliation *)

Ltac eff_unfold :=
  unfold reconcile, state_after, connectToCurrentTab, handleDisconnect,
    bind, lift, assign, read, ret.

Ltac settle_unfold :=
  unfold handleSend_settle, try_catch_finally, handleSend_try, handleSend_catch,
    handleSend_finally, appendMessage, removeLoading, state_after,
    bind, lift, assign, read, ret.

Lemma strict_eq_true (a b : option string) : strict_eq a b = true <-> a = b.
Proof.
  destruct a as [x|], b as [y|]; simpl; split; intro H;
    try discriminate; try reflexivity.
  - apply String.eqb_eq in H. congruence.
  - apply String.eqb_eq. congruence.
Qed.

Lemma strict_eq_false (a b : option string) : strict_eq a b = false <-> a <> b.
Proof.
  split.
  - intros H E. apply strict_eq_true in E. congruence.
  - intro H. destruct (strict_eq a b) eqn:E; [|reflexivity].
    apply strict_eq_true in E. contradiction.
Qed.

Lemma strict_eq_refl (a : option string) : strict_eq a a = true.
Proof. apply strict_eq_true. reflexivity. Qed.

Lemma nonempty_eqb (s : string) : s <> "" -> (s =? "") = false.
Proof. intro H. apply String.eqb_neq. exact H. Qed.

Lemma includes_nonempty (tab_url : string) :
  includes "youtube.com/watch" tab_url = true -> (tab_url =? "") = false.
Proof. destruct tab_url; [discriminate | reflexivity]. Qed.

(** The three ways a reconciliation ends when the URL has a search
    component, as the panel it leaves. *)
Lemma reconcile_watch_page (tab : option Tab) (search : string) (p : Panel) :
  watch_page tab search ->
  reconcile tab p =
  if ToBoolean (as_value (video_identifier search)) then
    if strict_eq (video_identifier search) (currentVideoId p) then p
    else {| currentVideoId := video_identifier search;
            statusEl_textContent := "Connected";
            statusEl_className := "status connected";
            inputEl_value := inputEl_value p;
            inputEl_disabled := false;
            inputEl_focused := inputEl_focused p;
            sendBtn_disabled := false;
            chatHistory := [greeting] |}
  else {| currentVideoId := None;
          statusEl_textContent := "No Video ID";
          statusEl_className := "status error";
          inputEl_value := inputEl_value p;
          inputEl_disabled := true;
          inputEl_focused := false;
          sendBtn_disabled := true;
          chatHistory := chatHistory p |}.
Proof.
  intros (tab_url & -> & Hinc & Hsearch).
  eff_unfold. unfold video_identifier.
  rewrite (includes_nonempty _ Hinc), Hinc, Hsearch. simpl.
  destruct (ToBoolean (as_value (get (URLSearchParams search) "v"))); [|reflexivity].
  destruct (strict_eq (get (URLSearchParams search) "v") (currentVideoId p));
    reflexivity.
Qed.

Lemma reconcile_not_youtube (tab : option Tab) (p : Panel) :
  not_youtube tab ->
  reconcile tab p =
  {| currentVideoId := None;
     statusEl_textContent := "Not YouTube";
     statusEl_className := "status error";
     inputEl_value := inputEl_value p;
     inputEl_disabled := true;
     inputEl_focused := false;
     sendBtn_disabled := true;
     chatHistory := chatHistory p |}.
Proof.
  intro H. destruct tab as [[[tab_url|]]|]; try reflexivity.
  eff_unfold. rewrite (H tab_url eq_refl), andb_false_r. reflexivity.
Qed.

Lemma reconcile_same_video (tab : option Tab) (videoId : string) (p : Panel) :
  observes_video tab videoId ->
  currentVideoId p = Some videoId ->
  reconcile tab p = p.
Proof.
  intros (search & Hpage & Hid & Hne) Hcur.
  rewrite (reconcile_watch_page _ _ _ Hpage), Hid, Hcur. simpl.
  rewrite (nonempty_eqb _ Hne), String.eqb_refl. reflexivity.
Qed.

Lemma reconcile_other_video (tab : option Tab) (videoId : string) (p : Panel) :
  observes_video tab videoId ->
  currentVideoId p <> Some videoId ->
  reconcile tab p =
  {| currentVideoId := Some videoId;
     statusEl_textContent := "Connected";
     statusEl_className := "status connected";
     inputEl_value := inputEl_value p;
     inputEl_disabled := false;
     inputEl_focused := inputEl_focused p;
     sendBtn_disabled := false;
     chatHistory := [greeting] |}.
Proof.
  intros (search & Hpage & Hid & Hne) Hcur.
  rewrite (reconcile_watch_page _ _ _ Hpage), Hid.
  assert (E : strict_eq (Some videoId) (currentVideoId p) = false).
  { apply strict_eq_false. congruence. }
  rewrite E. simpl. rewrite (nonempty_eqb _ Hne). reflexivity.
Qed.

Lemma reconcile_all_same_video (tabs : list (option Tab)) (videoId : string) :
  Forall (fun tab => observes_video tab videoId) tabs ->
  forall p, currentVideoId p = Some videoId -> reconcile_all tabs p = p.
Proof.
  induction 1 as [|tab tabs Htab _ IH]; intros p Hcur; [reflexivity|].
  unfold reconcile_all in *. simpl.
  rewrite (reconcile_same_video _ _ _ Htab Hcur). apply IH, Hcur.
Qed.

(** From any panel, a run of reconciliations that observe one video ends
    in the panel that the first of them leaves. *)
Lemma reconcile_all_collapses
  (tab : option Tab) (tabs : list (option Tab)) (videoId : string) (p : Panel) :
  observes_video tab videoId ->
  Forall (fun t => observes_video t videoId) tabs ->
  reconcile_all (tab :: tabs) p = reconcile tab p.
Proof.
  intros Htab Hall.
  change (reconcile_all (tab :: tabs) p) with (reconcile_all tabs (reconcile tab p)).
  apply (reconcile_all_same_video _ _ Hall).
  destruct (strict_eq (Some videoId) (currentVideoId p)) eqn:E.
  - apply strict_eq_true in E.
    rewrite (reconcile_same_video _ _ _ Htab (eq_sym E)). auto.
  - apply strict_eq_false in E.
    rewrite (reconcile_other_video _ _ _ Htab); [reflexivity | congruence].
Qed.

Lemma observes_abc123 :
  observes_video (tab_of "https://www.youtube.com/watch?v=abc123") "abc123".
Proof.
  exists "?v=abc123". split; [|split; [reflexivity | discriminate]].
  eexists. split; [reflexivity|]. split; reflexivity.
Defined.

(** C2.  A reconciliation that observes a watch page whose video identifier
    differs from the current one (or when there is none) connects to it: the
    status line says Connected, the chat history is replaced by the greeting
    alone, a bot message, and both controls are enabled. *)
Theorem reconcile_connects_to_new_video
  (tab : option Tab) (videoId : string) (p : Panel) :
  observes_video tab videoId ->
  currentVideoId p <> Some videoId ->
  Connected (reconcile tab p) videoId
  /\ statusEl_textContent (reconcile tab p) = "Connected"
  /\ statusEl_className (reconcile tab p) = "status connected"
  /\ chatHistory (reconcile tab p) = [message greeting_text "bot"]
  /\ controls_enabled (reconcile tab p).
Proof.
  intros Htab Hcur. rewrite (reconcile_other_video _ _ _ Htab Hcur).
  destruct Htab as (search & _ & _ & Hne).
  unfold Connected, controls_enabled. simpl. repeat split; auto.
Qed.

Lemma reconcile_connects_to_new_video_witness :
  let tab := tab_of "https://www.youtube.com/watch?v=abc123" in
  let p := set_chatHistory [message "old" "user"] (set_currentVideoId (Some "xyz") page0) in
  observes_video tab "abc123"
  /\ currentVideoId p <> Some "abc123"
  /\ chatHistory (reconcile tab p) = [message greeting_text "bot"]
  /\ controls_enabled (reconcile tab p).
Proof.
  intros tab p.
  assert (Hcur : currentVideoId p <> Some "abc123") by discriminate.
  destruct (reconcile_connects_to_new_video tab "abc123" p observes_abc123 Hcur)
    as (_ & _ & _ & Hchat & Hctl).
  repeat split; try assumption. exact observes_abc123.
Defined.

(** C6.  A watch-page URL without a [v] parameter disconnects with the
    reason No Video ID; a tab whose URL does not contain the watch-page
    pattern (or that has no URL) disconnects with the reason Not YouTube.
    Both leave the two controls disabled. *)
Theorem reconcile_disconnects (tab : option Tab) (p : Panel) :
  (forall search, watch_page tab search -> video_identifier search = None ->
     Disconnected (reconcile tab p) "No Video ID"
     /\ controls_disabled (reconcile tab p))
  /\ (not_youtube tab ->
     Disconnected (reconcile tab p) "Not YouTube"
     /\ controls_disabled (reconcile tab p)).
Proof.
  split.
  - intros search Hpage Hid. rewrite (reconcile_watch_page _ _ _ Hpage), Hid.
    unfold Disconnected, controls_disabled. simpl. auto.
  - intro H. rewrite (reconcile_not_youtube _ _ H).
    unfold Disconnected, controls_disabled. simpl. auto.
Qed.

Lemma watch_page_without_v :
  watch_page (tab_of "https://www.youtube.com/watch") "".
Proof. eexists. split; [reflexivity|]. split; reflexivity. Defined.

Lemma example_com_not_youtube : not_youtube (tab_of "https://example.com").
Proof. intros tab_url H. injection H as <-. reflexivity. Defined.

Lemma reconcile_disconnects_witness :
  let connected := reconcile (tab_of "https://www.youtube.com/watch?v=abc123") page0 in
  (watch_page (tab_of "https://www.youtube.com/watch") ""
   /\ video_identifier "" = None
   /\ Disconnected (reconcile (tab_of "https://www.youtube.com/watch") connected)
        "No Video ID"
   /\ controls_disabled (reconcile (tab_of "https://www.youtube.com/watch") connected))
  /\ (not_youtube (tab_of "https://example.com")
      /\ Disconnected (reconcile (tab_of "https://example.com") connected) "Not YouTube"
      /\ controls_disabled (reconcile (tab_of "https://example.com") connected)).
Proof.
  intro connected. split.
  - destruct (reconcile_disconnects (tab_of "https://www.youtube.com/watch") connected)
      as [H _].
    destruct (H "" watch_page_without_v eq_refl) as [Hd Hc].
    repeat split; solve [exact watch_page_without_v | apply Hd | apply Hc].
  - destruct (reconcile_disconnects (tab_of "https://example.com") connected)
      as [_ H].
    destruct (H example_com_not_youtube) as [Hd Hc].
    repeat split; solve [exact example_com_not_youtube | apply Hd | apply Hc].
Defined.

Lemma handleDisconnect_state (reason : string) (p : Panel) :
  state_after (handleDisconnect reason) p =
  {| currentVideoId := None;
     statusEl_textContent := reason;
     statusEl_className := "status error";
     inputEl_value := inputEl_value p;
     inputEl_disabled := true;
     inputEl_focused := false;
     sendBtn_disabled := true;
     chatHistory := chatHistory p |}.
Proof. reflexivity. Qed.

(** C10.  A [v] parameter that is present but empty counts as no video
    identifier: the reconciliation disconnects with the reason No Video ID,
    and does not connect with an empty identifier. *)
Theorem empty_video_identifier_disconnects
  (tab : option Tab) (search : string) (p : Panel) :
  watch_page tab search ->
  video_identifier search = Some "" ->
  Disconnected (reconcile tab p) "No Video ID"
  /\ controls_disabled (reconcile tab p)
  /\ currentVideoId (reconcile tab p) <> Some "".
Proof.
  intros Hpage Hid. rewrite (reconcile_watch_page _ _ _ Hpage), Hid.
  unfold Disconnected, controls_disabled. simpl. repeat split; discriminate.
Qed.

Lemma watch_page_empty_v :
  watch_page (tab_of "https://www.youtube.com/watch?v=") "?v=".
Proof. eexists. split; [reflexivity|]. split; reflexivity. Defined.

Lemma empty_video_identifier_disconnects_witness :
  let tab := tab_of "https://www.youtube.com/watch?v=" in
  watch_page tab "?v="
  /\ video_identifier "?v=" = Some ""
  /\ Disconnected (reconcile tab page0) "No Video ID"
  /\ controls_disabled (reconcile tab page0).
Proof.
  intro tab.
  destruct (empty_video_identifier_disconnects tab "?v=" page0 watch_page_empty_v eq_refl)
    as (Hd & Hc & _).
  split; [exact watch_page_empty_v|]. split; [reflexivity|]. split; assumption.
Defined.

(** ** Submission *)

Lemma filter_remove_by_id_others (l : list Element) :
  filter (fun e => negb (is_placeholder e)) (remove_by_id "loading-msg" l)
  = filter (fun e => negb (is_placeholder e)) l.
Proof.
  induction l as [|e l IH]; [reflexivity|].
  simpl. unfold is_placeholder at 2.
  destruct (id e =? "loading-msg") eqn:E; simpl.
  - reflexivity.
  - unfold is_placeholder at 1. rewrite E. simpl. now rewrite IH.
Qed.

Lemma filter_remove_by_id_placeholders (l : list Element) :
  length (filter is_placeholder (remove_by_id "loading-msg" l))
  = pred (length (filter is_placeholder l)).
Proof.
  induction l as [|e l IH]; [reflexivity|].
  simpl. unfold is_placeholder at 2.
  destruct (id e =? "loading-msg") eqn:E; simpl.
  - reflexivity.
  - unfold is_placeholder at 1. rewrite E. exact IH.
Qed.

Lemma remove_by_id_absent (l : list Element) :
  length (filter is_placeholder l) = 0 -> remove_by_id "loading-msg" l = l.
Proof.
  induction l as [|e l IH]; [reflexivity|].
  simpl. unfold is_placeholder at 1.
  destruct (id e =? "loading-msg"); simpl; [discriminate|].
  intro H. now rewrite IH.
Qed.

(** [handleSend] up to its first [await], when the guard lets it pass. *)
Lemma handleSend_begin_valid (p : Panel) (videoId : string) :
  Connected p videoId ->
  trim (inputEl_value p) <> "" ->
  handleSend_begin p =
  (Normal (Some {| resource := "http://localhost:5000/chat";
                   method := "POST";
                   headers := [("Content-Type", "application/json")];
                   body := JSON_stringify
                             (JSObject [("video_id", JSString videoId);
                                        ("question", JSString (trim (inputEl_value p)))]) |}),
   {| currentVideoId := Some videoId;
      statusEl_textContent := statusEl_textContent p;
      statusEl_className := statusEl_className p;
      inputEl_value := "";
      inputEl_disabled := true;
      inputEl_focused := false;
      sendBtn_disabled := true;
      chatHistory := (chatHistory p
                      ++ [message (trim (inputEl_value p)) "user"; loading])%list |}).
Proof.
  intros [Hcur Hid] Hq.
  unfold handleSend_begin, appendMessage, appendLoading, bind, lift, assign, read, ret.
  rewrite Hcur. simpl.
  rewrite (nonempty_eqb _ Hq), (nonempty_eqb _ Hid). simpl.
  unfold set_chatHistory, set_sendBtn_disabled, set_inputEl_disabled,
    set_inputEl_value. simpl.
  rewrite Hcur, <- app_assoc. reflexivity.
Qed.

(** [handleSend] when the guard returns. *)
Lemma handleSend_begin_guard (p : Panel) :
  trim (inputEl_value p) = "" \/ currentVideoId p = None \/ currentVideoId p = Some "" ->
  handleSend_begin p = (Normal None, p).
Proof.
  intro H.
  unfold handleSend_begin, bind, read, ret.
  destruct H as [H | [H | H]]; rewrite H; simpl.
  - reflexivity.
  - now rewrite orb_true_r.
  - now rewrite orb_true_r.
Qed.

(** [handleSend] from the settling of its request on, from any panel: it
    removes the placeholder (once, or twice when the [try] block throws
    after its own removal), appends one bot message with the reply, enables
    the controls and focuses the input. *)
Lemma handleSend_settle_state (outcome : FetchOutcome) (p : Panel) :
  exists text,
    reply_text outcome text
    /\ (state_after (handleSend_settle outcome) p
        = answered text (remove_by_id "loading-msg" (chatHistory p)) p
        \/ state_after (handleSend_settle outcome) p
           = answered text
               (remove_by_id "loading-msg" (remove_by_id "loading-msg" (chatHistory p))) p).
Proof.
  destruct outcome as [|ok [data|]].
  - eexists. split; [apply reply_unreachable|]. left. reflexivity.
  - destruct ok.
    + destruct (Get data "answer") as [answer|] eqn:Hget.
      * destruct (DOMString answer) as [text|] eqn:Htext.
        -- exists text. split; [eapply reply_answer; eassumption|]. left.
           settle_unfold. rewrite Hget. simpl. rewrite Htext. reflexivity.
        -- eexists. split; [apply reply_unusable_answer; eauto|]. right.
           settle_unfold. rewrite Hget. simpl. rewrite Htext. reflexivity.
      * eexists. split; [apply reply_unusable_answer; auto|]. right.
        settle_unfold. rewrite Hget. reflexivity.
    + destruct (Get data "error") as [error|] eqn:Hget.
      * destruct (ToBoolean error) eqn:Hbool.
        -- destruct (ToString error) as [text|] eqn:Htext.
           ++ eexists. split; [eapply reply_server_error; eassumption|]. left.
              settle_unfold. rewrite Hget. simpl. unfold error_text, or_else.
              rewrite Hbool, Htext. reflexivity.
           ++ eexists. split; [apply reply_unusable_error; eauto|]. right.
              settle_unfold. rewrite Hget. simpl. unfold error_text, or_else.
              rewrite Hbool, Htext. reflexivity.
        -- eexists. split; [eapply reply_server_error_fallback; eassumption|]. left.
           settle_unfold. rewrite Hget. simpl. unfold error_text, or_else.
           rewrite Hbool. reflexivity.
      * eexists. split; [apply reply_unusable_error; auto|]. right.
        settle_unfold. rewrite Hget. reflexivity.
  - eexists. split; [apply reply_not_json|]. left. reflexivity.
Qed.

Lemma messages_answered (text : string) (history : list Element) (p : Panel) :
  messages (answered text history p)
  = (filter (fun e => negb (is_placeholder e)) history ++ [message text "bot"])%list.
Proof. unfold messages. simpl. rewrite filter_app. reflexivity. Qed.

Lemma placeholders_answered (text : string) (history : list Element) (p : Panel) :
  placeholders (answered text history p) = length (filter is_placeholder history).
Proof.
  unfold placeholders. simpl. rewrite filter_app, length_app. simpl. lia.
Qed.

(** What the settling of a request does to the log, the placeholders and
    the controls, from any panel. *)
Lemma handleSend_settle_effect (outcome : FetchOutcome) (p : Panel) :
  exists text,
    reply_text outcome text
    /\ messages (state_after (handleSend_settle outcome) p)
       = (messages p ++ [message text "bot"])%list
    /\ placeholders (state_after (handleSend_settle outcome) p) <= pred (placeholders p)
    /\ controls_enabled (state_after (handleSend_settle outcome) p)
    /\ inputEl_focused (state_after (handleSend_settle outcome) p) = true
    /\ currentVideoId (state_after (handleSend_settle outcome) p) = currentVideoId p.
Proof.
  destruct (handleSend_settle_state outcome p) as (text & Hreply & [H | H]);
    exists text; rewrite H; rewrite messages_answered, placeholders_answered;
    rewrite ?filter_remove_by_id_others, ?filter_remove_by_id_placeholders;
    unfold controls_enabled, messages, placeholders; simpl;
    repeat split; auto; lia.
Qed.

(** C3.  A question that is not empty once trimmed, submitted while
    connected: [handleSend] appends the user message before it suspends;
    when its request is settled, whatever the panel has become by then, it
    appends one bot message (the answer or an error), enables both controls
    and focuses the input, on every outcome.  With nothing running in
    between, the log gains exactly the user message and then the bot
    message. *)
Theorem submit_appends_question_then_reply
  (outcome : FetchOutcome) (p : Panel) (videoId : string) :
  Connected p videoId ->
  trim (inputEl_value p) <> "" ->
  (exists request p1,
     handleSend_begin p = (Normal (Some request), p1)
     /\ messages p1 = (messages p ++ [message (trim (inputEl_value p)) "user"])%list)
  /\ (forall p2, exists text,
        reply_text outcome text
        /\ messages (state_after (handleSend_settle outcome) p2)
           = (messages p2 ++ [message text "bot"])%list
        /\ controls_enabled (state_after (handleSend_settle outcome) p2)
        /\ inputEl_focused (state_after (handleSend_settle outcome) p2) = true)
  /\ (exists text,
        reply_text outcome text
        /\ messages (fst (handleSend outcome p))
           = (messages p ++ [message (trim (inputEl_value p)) "user";
                             message text "bot"])%list
        /\ controls_enabled (fst (handleSend outcome p))
        /\ inputEl_focused (fst (handleSend outcome p)) = true).
Proof.
  intros Hc Hq.
  assert (Hbegin := handleSend_begin_valid _ _ Hc Hq).
  assert (Hlog : forall x st cl v,
             messages {| currentVideoId := x;
                         statusEl_textContent := st;
                         statusEl_className := cl;
                         inputEl_value := v;
                         inputEl_disabled := true;
                         inputEl_focused := false;
                         sendBtn_disabled := true;
                         chatHistory := (chatHistory p
                            ++ [message (trim (inputEl_value p)) "user"; loading])%list |}
             = (messages p ++ [message (trim (inputEl_value p)) "user"])%list).
  { intros. unfold messages. simpl. rewrite filter_app. reflexivity. }
  split; [|split].
  - do 2 eexists. split; [exact Hbegin|]. apply Hlog.
  - intro p2.
    destruct (handleSend_settle_effect outcome p2) as (text & Hr & Hm & _ & Hctl & Hf & _).
    exists text. auto.
  - unfold handleSend. rewrite Hbegin. simpl fst.
    match goal with
    | |- context [state_after (handleSend_settle outcome) ?q] =>
        destruct (handleSend_settle_effect outcome q) as (text & Hr & Hm & _ & Hctl & Hf & _)
    end.
    exists text. rewrite Hm, Hlog, <- app_assoc. auto.
Qed.

Lemma asked_connected (question : string) : Connected (asked question) "abc123".
Proof. split; [reflexivity | discriminate]. Defined.

Lemma submit_appends_question_then_reply_witness :
  let p := asked "  What is this video about? " in
  Connected p "abc123"
  /\ trim (inputEl_value p) <> ""
  /\ (exists text,
        reply_text tutorial_answer text
        /\ messages (fst (handleSend tutorial_answer p))
           = [greeting; message "What is this video about?" "user"; message text "bot"]
        /\ controls_enabled (fst (handleSend tutorial_answer p))
        /\ inputEl_focused (fst (handleSend tutorial_answer p)) = true).
Proof.
  intro p.
  assert (Hq : trim (inputEl_value p) <> "") by (vm_compute; discriminate).
  split; [apply asked_connected|]. split; [exact Hq|].
  exact (proj2 (proj2 (submit_appends_question_then_reply
                         tutorial_answer p "abc123" (asked_connected _) Hq))).
Defined.

Lemma remove_by_id_twice (l : list Element) :
  length (filter is_placeholder l) <= 1 ->
  remove_by_id "loading-msg" (remove_by_id "loading-msg" l)
  = remove_by_id "loading-msg" l.
Proof.
  intro H. apply remove_by_id_absent.
  rewrite filter_remove_by_id_placeholders. lia.
Qed.

(** The reply to a failed request. *)
Lemma reply_text_failed (outcome : FetchOutcome) (text : string) :
  failed outcome ->
  reply_text outcome text ->
  exists m,
    text = "Error: " ++ m
    /\ (outcome = Rejected -> m = could_not_connect)
    /\ (forall data error served,
          outcome = Fulfilled false (Normal data) ->
          Get data "error" = Normal error ->
          ToBoolean error = true ->
          ToString error = Normal served ->
          m = served)
    /\ ((exists data error,
           outcome = Fulfilled false (Normal data)
           /\ Get data "error" = Normal error
           /\ ToBoolean error = true
           /\ ToString error = Normal m)
        \/ m = "Server error"
        \/ m = could_not_connect).
Proof.
  intros Hfailed Hreply.
  destruct Hreply as [data answer text Hget Htext
                     | data error text Hget Hbool Htext
                     | data error Hget Hbool
                     |
                     | ok
                     | data Hbad
                     | data Hbad].
  - destruct Hfailed as [H | [json H]]; discriminate.
  - exists text. split; [reflexivity|]. split; [discriminate|]. split.
    + intros data' error' served E Hget' Hbool' Hserved.
      injection E as <-. congruence.
    + left. eauto 6.
  - exists "Server error". split; [reflexivity|]. split; [discriminate|]. split.
    + intros data' error' served E Hget' Hbool' Hserved.
      injection E as <-. congruence.
    + auto.
  - exists could_not_connect. split; [reflexivity|]. split; [reflexivity|]. split.
    + discriminate.
    + auto.
  - exists could_not_connect. split; [reflexivity|]. split; [discriminate|]. split.
    + discriminate.
    + auto.
  - destruct Hfailed as [H | [json H]]; discriminate.
  - exists could_not_connect. split; [reflexivity|]. split; [discriminate|]. split.
    + intros data' error' served E Hget' Hbool' Hserved.
      injection E as <-.
      destruct Hbad as [Hthrow | (error & Hget & _ & Hthrow)]; congruence.
    + auto.
Qed.

(** The settling of a failed request, from a panel with at most one
    placeholder. *)
Lemma failed_settle_reports_error (outcome : FetchOutcome) (p : Panel) :
  failed outcome ->
  placeholders p <= 1 ->
  exists m,
    state_after (handleSend_settle outcome) p
    = answered ("Error: " ++ m) (remove_by_id "loading-msg" (chatHistory p)) p
    /\ placeholders (state_after (handleSend_settle outcome) p) = 0
    /\ (outcome = Rejected -> m = could_not_connect)
    /\ (forall data error served,
          outcome = Fulfilled false (Normal data) ->
          Get data "error" = Normal error ->
          ToBoolean error = true ->
          ToString error = Normal served ->
          m = served)
    /\ ((exists data error,
           outcome = Fulfilled false (Normal data)
           /\ Get data "error" = Normal error
           /\ ToBoolean error = true
           /\ ToString error = Normal m)
        \/ m = "Server error"
        \/ m = could_not_connect).
Proof.
  intros Hfailed Hone.
  destruct (handleSend_settle_state outcome p) as (text & Hreply & Hstate).
  destruct (reply_text_failed _ _ Hfailed Hreply) as (m & -> & Hm).
  exists m.
  assert (E : state_after (handleSend_settle outcome) p
              = answered ("Error: " ++ m) (remove_by_id "loading-msg" (chatHistory p)) p).
  { destruct Hstate as [H | H]; rewrite H; [reflexivity|].
    rewrite (remove_by_id_twice _ Hone). reflexivity. }
  split; [exact E|]. split; [|exact Hm].
  rewrite E, placeholders_answered, filter_remove_by_id_placeholders.
  unfold placeholders in Hone. lia.
Qed.

Lemma with_panel_same (s : System) : with_panel (panel s) s = s.
Proof. destruct s. reflexivity. Qed.

(** C7.  When the question is empty once trimmed, or when there is no
    current video, [handleSend] returns at its guard: the panel is left as
    it is (no message, no placeholder), no request is passed to [fetch] and
    nothing is left suspended, also when a listener calls it with the
    controls enabled. *)
Theorem submit_guard_is_noop (outcome : FetchOutcome) (s : System) :
  trim (inputEl_value (panel s)) = "" \/ currentVideoId (panel s) = None ->
  handleSend_begin (panel s) = (Normal None, panel s)
  /\ handleSend outcome (panel s) = (panel s, [])
  /\ call_handleSend s = s.
Proof.
  intro H.
  assert (E : handleSend_begin (panel s) = (Normal None, panel s)).
  { apply handleSend_begin_guard. tauto. }
  split; [exact E|]. unfold handleSend, call_handleSend. rewrite E.
  split; [reflexivity | apply with_panel_same].
Qed.

Lemma submit_guard_is_noop_witness :
  let blank := {| panel := asked "   "; queries := 0; inflight := []; fetched := [] |} in
  let gone := {| panel := set_inputEl_disabled false
                            (set_sendBtn_disabled false
                               (set_inputEl_value "Why?" (reconcile (tab_of "https://example.com")
                                                            (asked ""))));
                 queries := 0; inflight := []; fetched := [] |} in
  (trim (inputEl_value (panel blank)) = "" /\ step SendClicked blank = Some blank)
  /\ (currentVideoId (panel gone) = None /\ step (KeyPressed "Enter") gone = Some gone).
Proof.
  intros blank gone.
  assert (Hblank : trim (inputEl_value (panel blank)) = "") by reflexivity.
  assert (Hgone : currentVideoId (panel gone) = None) by reflexivity.
  destruct (submit_guard_is_noop Rejected blank (or_introl Hblank)) as (_ & _ & Eb).
  destruct (submit_guard_is_noop Rejected gone (or_intror Hgone)) as (_ & _ & Eg).
  split; split; try assumption.
  - change (step SendClicked blank) with (Some (call_handleSend blank)). now rewrite Eb.
  - change (step (KeyPressed "Enter") gone) with (Some (call_handleSend gone)).
    now rewrite Eg.
Defined.

(** C8.  A valid submission passes exactly one request to [fetch]: a POST
    to [http://localhost:5000/chat] with a JSON content type, whose body is
    the serialization of the object with [video_id] the current video and
    [question] the trimmed question.  A listener's call records this one
    request and leaves one call suspended. *)
Theorem submit_issues_one_post (outcome : FetchOutcome) (s : System) (videoId : string) :
  Connected (panel s) videoId ->
  trim (inputEl_value (panel s)) <> "" ->
  let request :=
    {| resource := "http://localhost:5000/chat";
       method := "POST";
       headers := [("Content-Type", "application/json")];
       body := JSON_stringify
                 (JSObject [("video_id", JSString videoId);
                            ("question", JSString (trim (inputEl_value (panel s))))]) |} in
  snd (handleSend outcome (panel s)) = [request]
  /\ fetched (call_handleSend s) = (fetched s ++ [request])%list
  /\ inflight (call_handleSend s) = (inflight s ++ [AwaitingFetch])%list.
Proof.
  intros Hc Hq request.
  unfold handleSend, call_handleSend.
  rewrite (handleSend_begin_valid _ _ Hc Hq). simpl. auto.
Qed.

Lemma submit_issues_one_post_witness :
  let s := {| panel := asked " What is this video about?";
              queries := 0; inflight := []; fetched := [] |} in
  Connected (panel s) "abc123"
  /\ trim (inputEl_value (panel s)) <> ""
  /\ snd (handleSend tutorial_answer (panel s))
     = [ {| resource := "http://localhost:5000/chat";
            method := "POST";
            headers := [("Content-Type", "application/json")];
            body := JSON_stringify
                      (JSObject [("video_id", JSString "abc123");
                                 ("question", JSString "What is this video about?")]) |} ].
Proof.
  intro s.
  assert (Hq : trim (inputEl_value (panel s)) <> "") by (vm_compute; discriminate).
  split; [apply asked_connected|]. split; [exact Hq|].
  exact (proj1 (submit_issues_one_post tutorial_answer s "abc123" (asked_connected _) Hq)).
Defined.

(** ** The event loop: placeholders and single flight *)

(** A reconciliation leaves the panel as it is, disconnects, or connects to
    a video that is not the current one. *)
Lemma reconcile_cases (tab : option Tab) (p : Panel) :
  reconcile tab p = p
  \/ (exists reason, reconcile tab p = state_after (handleDisconnect reason) p)
  \/ (exists videoId,
        currentVideoId p <> Some videoId
        /\ reconcile tab p =
           {| currentVideoId := Some videoId;
              statusEl_textContent := "Connected";
              statusEl_className := "status connected";
              inputEl_value := inputEl_value p;
              inputEl_disabled := false;
              inputEl_focused := inputEl_focused p;
              sendBtn_disabled := false;
              chatHistory := [greeting] |}).
Proof.
  destruct tab as [[[tab_url|]]|];
    try (right; left; exists "Not YouTube"; reflexivity).
  eff_unfold.
  destruct (negb (tab_url =? "") && includes "youtube.com/watch" tab_url);
    [|right; left; exists "Not YouTube"; reflexivity].
  destruct (URL_search tab_url) as [search|]; [|left; reflexivity].
  destruct (get (URLSearchParams search) "v") as [videoId|];
    [|right; left; exists "No Video ID"; reflexivity].
  unfold as_value, ToBoolean.
  destruct (negb (videoId =? ""));
    [|right; left; exists "No Video ID"; reflexivity].
  destruct (strict_eq (Some videoId) (currentVideoId p)) eqn:E.
  - left. reflexivity.
  - right. right. exists videoId. apply strict_eq_false in E.
    split; [congruence | reflexivity].
Qed.

(** A call of [handleSend] returns at the guard or passes it. *)
Lemma handleSend_begin_cases (p : Panel) :
  handleSend_begin p = (Normal None, p)
  \/ exists videoId, Connected p videoId /\ trim (inputEl_value p) <> "".
Proof.
  destruct (string_dec (trim (inputEl_value p)) "") as [Hq | Hq].
  - left. apply handleSend_begin_guard. auto.
  - destruct (currentVideoId p) as [videoId|] eqn:Hcur.
    + destruct (string_dec videoId "") as [-> | Hid].
      * left. apply handleSend_begin_guard. auto.
      * right. exists videoId. split; [split|]; assumption.
    + left. apply handleSend_begin_guard. auto.
Qed.

Lemma call_handleSend_cases (s : System) :
  call_handleSend s = s
  \/ (inflight (call_handleSend s) = (inflight s ++ [AwaitingFetch])%list
      /\ placeholders (panel (call_handleSend s)) = S (placeholders (panel s))
      /\ controls_disabled (panel (call_handleSend s))
      /\ currentVideoId (panel (call_handleSend s)) = currentVideoId (panel s)).
Proof.
  unfold call_handleSend.
  destruct (handleSend_begin_cases (panel s)) as [E | (videoId & Hc & Hq)].
  - left. rewrite E. apply with_panel_same.
  - right. rewrite (handleSend_begin_valid _ _ Hc Hq).
    unfold placeholders, controls_disabled. simpl.
    rewrite filter_app, length_app. simpl.
    destruct Hc as [Hcur _]. rewrite Hcur. repeat split; auto. lia.
Qed.

Lemma length_remove_nth {A} (l : list A) (i : nat) (x : A) :
  nth_error l i = Some x -> length (remove_nth i l) = pred (length l).
Proof.
  revert i. induction l as [|y l IH]; intros [|i] H; try discriminate.
  - reflexivity.
  - simpl in *. rewrite (IH _ H). destruct l; [destruct i; discriminate | reflexivity].
Qed.

Lemma length_replace_nth {A} (l : list A) (i : nat) (y : A) :
  length (replace_nth i y l) = length l.
Proof.
  revert i. induction l as [|x l IH]; intros [|i]; simpl; auto.
Qed.


Lemma settle_clears_placeholder (outcome : FetchOutcome) (p : Panel) :
  placeholders p <= 1 ->
  placeholders (state_after (handleSend_settle outcome) p) = 0.
Proof.
  intro H.
  destruct (handleSend_settle_effect outcome p) as (text & _ & _ & Hle & _).
  lia.
Qed.

Lemma placeholder_invariant_none (s : System) :
  placeholders (panel s) = 0 -> placeholder_invariant s.
Proof. intro H. split; [lia | intro E; lia]. Qed.

Lemma call_handleSend_placeholder_invariant (s : System) :
  inputEl_disabled (panel s) = false \/ sendBtn_disabled (panel s) = false ->
  placeholder_invariant s ->
  placeholder_invariant (call_handleSend s).
Proof.
  intros Hon [Hle Hone].
  assert (Hzero : placeholders (panel s) = 0).
  { destruct (placeholders (panel s)) as [|[|n]] eqn:E; [reflexivity | | lia].
    destruct (Hone eq_refl) as [[Hi Hs] _]. destruct Hon; congruence. }
  destruct (call_handleSend_cases s) as [-> | (Hin & Hpl & Hctl & _)].
  - split; assumption.
  - split; [lia|]. intros _. split; [exact Hctl|].
    rewrite Hin. destruct (inflight s); discriminate.
Qed.

Lemma step_placeholder_invariant (e : Event) (s s' : System) :
  step e s = Some s' ->
  placeholder_invariant s ->
  placeholder_invariant s'.
Proof.
  intros Hstep Hinv. destruct e as [status active| |tab|value| |key|i response|i json];
    simpl in Hstep.
  - destruct status as [st|]; [destruct ((st =? "complete") && active)|];
      injection Hstep as <-; exact Hinv.
  - injection Hstep as <-. exact Hinv.
  - destruct (queries s) as [|n]; [discriminate|]. injection Hstep as <-.
    destruct Hinv as [Hle Hone]. unfold placeholder_invariant. simpl.
    destruct (reconcile_cases tab (panel s)) as [E | [(reason & E) | (videoId & _ & E)]];
      rewrite E.
    + split; assumption.
    + rewrite handleDisconnect_state. unfold placeholders, controls_disabled in *.
      simpl. split; [exact Hle|]. intro H. split; [auto | apply Hone, H].
    + apply (placeholder_invariant_none
               {| panel := _; queries := n; inflight := inflight s; fetched := fetched s |}).
      reflexivity.
  - destruct (inputEl_disabled (panel s)); [discriminate|]. injection Hstep as <-.
    exact Hinv.
  - destruct (sendBtn_disabled (panel s)) eqn:E; [discriminate|]. injection Hstep as <-.
    apply call_handleSend_placeholder_invariant; auto.
  - destruct (inputEl_disabled (panel s)) eqn:E; [discriminate|].
    destruct (key =? "Enter"); injection Hstep as <-; [|exact Hinv].
    apply call_handleSend_placeholder_invariant; auto.
  - destruct (nth_error (inflight s) i) as [[|ok]|] eqn:Hnth; try discriminate.
    destruct response as [ok|]; injection Hstep as <-.
    + destruct Hinv as [Hle Hone]. split; [exact Hle|]. simpl. intro H.
      destruct (Hone H) as [Hctl Hne]. split; [exact Hctl|].
      intro E. apply (f_equal (@length _)) in E.
      rewrite length_replace_nth in E. destruct (inflight s); [congruence | discriminate].
    + apply placeholder_invariant_none. simpl.
      apply settle_clears_placeholder, Hinv.
  - destruct (nth_error (inflight s) i) as [[|ok]|] eqn:Hnth; try discriminate.
    injection Hstep as <-. apply placeholder_invariant_none. simpl.
    apply settle_clears_placeholder, Hinv.
Qed.

Lemma run_placeholder_invariant (events : list Event) :
  forall s s', run events s = Some s' ->
               placeholder_invariant s -> placeholder_invariant s'.
Proof.
  induction events as [|e events IH]; intros s s' Hrun Hinv; simpl in Hrun.
  - injection Hrun as <-. exact Hinv.
  - destruct (step e s) as [s1|] eqn:Hstep; [|discriminate].
    apply (IH _ _ Hrun). apply (step_placeholder_invariant _ _ _ Hstep Hinv).
Qed.

(** A calm run is a run. *)
Lemma run_calm_run (events : list Event) :
  forall s s', run_calm events s = Some s' -> run events s = Some s'.
Proof.
  induction events as [|e events IH]; intros s s' H; simpl in *; [exact H|].
  destruct (calm e s); [|discriminate].
  destruct (step e s) as [s1|]; [apply IH, H | discriminate].
Qed.

Lemma single_flight_idle (s : System) : inflight s = [] -> single_flight s.
Proof. intro H. split; rewrite H; [simpl; lia | congruence]. Qed.

Lemma call_handleSend_single_flight (s : System) :
  inputEl_disabled (panel s) = false \/ sendBtn_disabled (panel s) = false ->
  single_flight s ->
  single_flight (call_handleSend s).
Proof.
  intros Hon [Hle Hbusy].
  assert (Hidle : inflight s = []).
  { destruct (inflight s) as [|x l] eqn:E; [reflexivity|].
    destruct Hbusy as [Hi Hs]; [discriminate|]. destruct Hon; congruence. }
  destruct (call_handleSend_cases s) as [-> | (Hin & _ & Hctl & _)].
  - split; assumption.
  - split; rewrite Hin, Hidle; [simpl; lia | auto].
Qed.

Lemma step_single_flight (e : Event) (s s' : System) :
  calm e s = true ->
  step e s = Some s' ->
  single_flight s ->
  single_flight s'.
Proof.
  intros Hcalm Hstep Hinv.
  destruct e as [status active| |tab|value| |key|i response|i json]; simpl in Hstep.
  - destruct status as [st|]; [destruct ((st =? "complete") && active)|];
      injection Hstep as <-; exact Hinv.
  - injection Hstep as <-. exact Hinv.
  - destruct (queries s) as [|n]; [discriminate|]. injection Hstep as <-.
    unfold calm in Hcalm.
    destruct (inflight s) as [|x l] eqn:Hin; [apply single_flight_idle; exact Hin|].
    destruct Hinv as [Hle Hbusy]. unfold single_flight. simpl. rewrite Hin.
    split; [rewrite Hin in Hle; exact Hle|]. intros _.
    destruct (reconcile_cases tab (panel s)) as [E | [(reason & E) | (videoId & Hne & E)]].
    + rewrite E. apply Hbusy. rewrite Hin. discriminate.
    + rewrite E, handleDisconnect_state. split; reflexivity.
    + exfalso. unfold switches_video in Hcalm. rewrite E in Hcalm.
      cbn [currentVideoId] in Hcalm.
      assert (F : strict_eq (Some videoId) (currentVideoId (panel s)) = false).
      { apply strict_eq_false. congruence. }
      rewrite F in Hcalm. discriminate.
  - destruct (inputEl_disabled (panel s)); [discriminate|]. injection Hstep as <-.
    exact Hinv.
  - destruct (sendBtn_disabled (panel s)) eqn:E; [discriminate|]. injection Hstep as <-.
    apply call_handleSend_single_flight; auto.
  - destruct (inputEl_disabled (panel s)) eqn:E; [discriminate|].
    destruct (key =? "Enter"); injection Hstep as <-; [|exact Hinv].
    apply call_handleSend_single_flight; auto.
  - destruct (nth_error (inflight s) i) as [[|ok]|] eqn:Hnth; try discriminate.
    destruct Hinv as [Hle Hbusy].
    destruct response as [ok|]; injection Hstep as <-.
    + split; simpl; [rewrite length_replace_nth; exact Hle|].
      intros _. apply Hbusy. intro E. rewrite E in Hnth. destruct i; discriminate.
    + apply single_flight_idle. simpl.
      apply length_zero_iff_nil. rewrite (length_remove_nth _ _ _ Hnth). lia.
  - destruct (nth_error (inflight s) i) as [[|ok]|] eqn:Hnth; try discriminate.
    destruct Hinv as [Hle Hbusy]. injection Hstep as <-.
    apply single_flight_idle. simpl.
    apply length_zero_iff_nil. rewrite (length_remove_nth _ _ _ Hnth). lia.
Qed.

Lemma run_calm_single_flight (events : list Event) :
  forall s s', run_calm events s = Some s' -> single_flight s -> single_flight s'.
Proof.
  induction events as [|e events IH]; intros s s' Hrun Hinv; simpl in Hrun.
  - injection Hrun as <-. exact Hinv.
  - destruct (calm e s) eqn:Hcalm; [|discriminate].
    destruct (step e s) as [s1|] eqn:Hstep; [|discriminate].
    apply (IH _ _ Hrun). apply (step_single_flight _ _ _ Hcalm Hstep Hinv).
Qed.

(** The connecting branch in terms of what the tab shows. *)
Lemma switches_video_connects (tab : option Tab) (p : Panel) :
  switches_video tab p = true <->
  exists videoId, observes_video tab videoId /\ currentVideoId p <> Some videoId.
Proof.
  unfold switches_video. split.
  - intro H.
    destruct tab as [[[tab_url|]]|]; try discriminate.
    destruct (includes "youtube.com/watch" tab_url) eqn:Hinc.
    + destruct (URL_search tab_url) as [search|] eqn:Hsearch.
      * assert (Hpage : watch_page (tab_of tab_url) search).
        { exists tab_url. auto. }
        unfold tab_of in Hpage. rewrite (reconcile_watch_page _ _ _ Hpage) in H.
        destruct (video_identifier search) as [videoId|] eqn:Hid; [|discriminate].
        cbn [as_value ToBoolean] in H.
        destruct (videoId =? "") eqn:Hempty; [discriminate|].
        cbn [negb] in H.
        destruct (strict_eq (Some videoId) (currentVideoId p)) eqn:E.
        -- destruct (currentVideoId p) as [current|]; [|discriminate].
           rewrite strict_eq_refl in H. discriminate.
        -- exists videoId. apply String.eqb_neq in Hempty.
           apply strict_eq_false in E.
           split; [exists search; auto | congruence].
      * assert (E : reconcile (Some {| url := Some tab_url |}) p = p).
        { eff_unfold. rewrite (includes_nonempty _ Hinc), Hinc, Hsearch. reflexivity. }
        rewrite E in H.
        destruct (currentVideoId p) as [current|]; [|discriminate].
        rewrite strict_eq_refl in H. discriminate.
    + assert (Hnot : not_youtube (Some {| url := Some tab_url |})).
      { intros u Hu. injection Hu as <-. exact Hinc. }
      rewrite (reconcile_not_youtube _ _ Hnot) in H. discriminate.
  - intros (videoId & Htab & Hcur).
    rewrite (reconcile_other_video _ _ _ Htab Hcur). cbn [currentVideoId].
    assert (E : strict_eq (Some videoId) (currentVideoId p) = false).
    { apply strict_eq_false. congruence. }
    rewrite E. reflexivity.
Qed.

Lemma start_invariants (page : Panel) :
  placeholders page = 0 ->
  placeholder_invariant (start page) /\ single_flight (start page).
Proof.
  intro H. split.
  - apply placeholder_invariant_none. exact H.
  - apply single_flight_idle. reflexivity.
Qed.

(** C4, as the panel behaves.  On every run of the event loop from a page
    without placeholder: there is at most one placeholder, and while it is
    shown both controls are disabled and a request is outstanding; a
    listener's call of [handleSend] either returns at the guard or shows
    exactly one placeholder and disables the controls; the arrival of the
    response headers changes nothing in the panel; and once a request is
    settled, whatever its outcome, no placeholder is left.  On the runs in
    which no reconciliation takes the connecting branch while a request is
    outstanding, at most one request is outstanding and the controls are
    disabled for as long as it is.  A reconciliation takes that branch
    exactly when it observes a video identifier that differs from the
    current one, null included: another video, or any video, the one asked
    about included, after a disconnect; it then enables both controls. *)
Theorem placeholder_removed_and_single_flight_when_calm
  (page : Panel) (events : list Event) (s : System) :
  placeholders page = 0 ->
  (run events (start page) = Some s ->
     placeholder_invariant s
     /\ (forall e s',
           e = SendClicked \/ (exists key, e = KeyPressed key) ->
           step e s = Some s' ->
           s' = s
           \/ (inflight s' = (inflight s ++ [AwaitingFetch])%list
               /\ placeholders (panel s') = 1
               /\ controls_disabled (panel s')))
     /\ (forall i ok s',
           step (FetchSettled i (Normal ok)) s = Some s' -> panel s' = panel s)
     /\ (forall e s',
           (exists i, e = FetchSettled i Throw) \/ (exists i json, e = JsonSettled i json) ->
           step e s = Some s' ->
           placeholders (panel s') = 0))
  /\ (run_calm events (start page) = Some s -> single_flight s)
  /\ (forall tab p,
        switches_video tab p = true <->
        exists videoId, observes_video tab videoId /\ currentVideoId p <> Some videoId)
  /\ (forall tab p,
        switches_video tab p = true -> controls_enabled (reconcile tab p)).
Proof.
  intro Hpage. destruct (start_invariants page Hpage) as [Hp0 Hs0].
  split; [|split; [|split]].
  - intro Hrun. assert (Hinv := run_placeholder_invariant _ _ _ Hrun Hp0).
    split; [exact Hinv|]. split; [|split].
    + intros e s' He Hstep.
      assert (Hinv' := step_placeholder_invariant _ _ _ Hstep Hinv).
      assert (Hcall : s' = call_handleSend s \/ s' = s).
      { destruct He as [-> | (key & ->)]; simpl in Hstep.
        - destruct (sendBtn_disabled (panel s)); [discriminate|].
          injection Hstep as <-. auto.
        - destruct (inputEl_disabled (panel s)); [discriminate|].
          destruct (key =? "Enter"); injection Hstep as <-; auto. }
      destruct Hcall as [-> | ->]; [|auto].
      destruct (call_handleSend_cases s) as [E | (Hin & Hpl & Hctl & _)]; [auto|].
      right. split; [exact Hin|]. split; [|exact Hctl].
      destruct Hinv' as [Hle _]. lia.
    + intros i ok s' Hstep. simpl in Hstep.
      destruct (nth_error (inflight s) i) as [[|ok']|]; try discriminate.
      injection Hstep as <-. reflexivity.
    + intros e s' He Hstep. destruct Hinv as [Hle _].
      destruct He as [(i & ->) | (i & json & ->)]; simpl in Hstep;
        destruct (nth_error (inflight s) i) as [[|ok]|]; try discriminate;
        injection Hstep as <-; simpl; apply settle_clears_placeholder, Hle.
  - intro Hrun. apply (run_calm_single_flight _ _ _ Hrun Hs0).
  - apply switches_video_connects.
  - intros tab p H. apply switches_video_connects in H.
    destruct H as (videoId & Htab & Hcur).
    rewrite (reconcile_other_video _ _ _ Htab Hcur). split; reflexivity.
Qed.

Lemma placeholder_removed_and_single_flight_when_calm_witness :
  placeholders page0 = 0
  /\ exists s,
       run_calm two_questions (start page0) = Some s
       /\ inflight s = [AwaitingFetch]
       /\ placeholder_invariant s
       /\ single_flight s.
Proof.
  split; [reflexivity|]. eexists. split; [vm_compute; reflexivity|].
  split; [reflexivity|].
  match goal with
  | |- placeholder_invariant ?final /\ _ =>
      set (s := final);
      destruct (placeholder_removed_and_single_flight_when_calm
                  page0 two_questions s eq_refl) as (Hall & Hcalm & _)
  end.
  assert (Hrun : run_calm two_questions (start page0) = Some s)
    by (vm_compute; reflexivity).
  split.
  - apply Hall, run_calm_run, Hrun.
  - apply Hcalm, Hrun.
Defined.

(** C4, as stated, fails: a reconciliation that connects to another video
    while a request is outstanding enables both controls, and the next
    submission leaves two requests outstanding. *)
Lemma controls_enabled_during_request :
  exists s1 s2,
    run switch_during_request (start page0) = Some s1
    /\ inflight s1 = [AwaitingFetch]
    /\ controls_enabled (panel s1)
    /\ ~ single_flight s1
    /\ run (switch_during_request ++ ask_again) (start page0) = Some s2
    /\ inflight s2 = [AwaitingFetch; AwaitingFetch]
    /\ ~ single_flight s2.
Proof.
  do 2 eexists.
  split; [vm_compute; reflexivity|].
  split; [reflexivity|].
  split; [split; reflexivity|].
  split.
  { intros [_ H]. destruct H as [H _]; [discriminate | discriminate]. }
  split; [vm_compute; reflexivity|].
  split; [reflexivity|].
  intros [H _]. simpl in H. lia.
Qed.

(** The same happens when the panel comes back to the video it was asked
    about after a disconnect: the reconciliation finds [currentVideoId]
    null, connects, and enables both controls while the request is still
    outstanding.  Such a run is not calm. *)
Lemma controls_enabled_after_return :
  exists s,
    run return_during_request (start page0) = Some s
    /\ currentVideoId (panel s) = Some "abc123"
    /\ inflight s = [AwaitingFetch]
    /\ controls_enabled (panel s)
    /\ ~ single_flight s
    /\ run_calm return_during_request (start page0) = None.
Proof.
  eexists.
  split; [vm_compute; reflexivity|].
  split; [reflexivity|].
  split; [reflexivity|].
  split; [split; reflexivity|].
  split; [|vm_compute; reflexivity].
  intros [_ H]. destruct H as [H _]; discriminate.
Qed.

(** C5.  A request that ends in an error, be it a failure status or no
    response at all, in any state the panel can be in: the placeholder is
    removed and one bot message is appended whose text is [Error: ] followed
    by the message the server gave, by [Server error], or by the
    could-not-connect message; it is the server's message whenever the
    server gave one, and the could-not-connect message when the service
    cannot be reached. *)
Theorem failed_request_reports_error
  (page : Panel) (events : list Event) (s : System) (outcome : FetchOutcome) :
  placeholders page = 0 ->
  run events (start page) = Some s ->
  failed outcome ->
  exists m,
    state_after (handleSend_settle outcome) (panel s)
    = answered ("Error: " ++ m)
        (remove_by_id "loading-msg" (chatHistory (panel s))) (panel s)
    /\ placeholders (state_after (handleSend_settle outcome) (panel s)) = 0
    /\ (outcome = Rejected -> m = could_not_connect)
    /\ (forall data error served,
          outcome = Fulfilled false (Normal data) ->
          Get data "error" = Normal error ->
          ToBoolean error = true ->
          ToString error = Normal served ->
          m = served)
    /\ ((exists data error,
           outcome = Fulfilled false (Normal data)
           /\ Get data "error" = Normal error
           /\ ToBoolean error = true
           /\ ToString error = Normal m)
        \/ m = "Server error"
        \/ m = could_not_connect).
Proof.
  intros Hpage Hrun Hfailed.
  apply (failed_settle_reports_error _ _ Hfailed).
  destruct (start_invariants page Hpage) as [Hp0 _].
  apply (run_placeholder_invariant _ _ _ Hrun Hp0).
Qed.

Lemma failed_request_reports_error_witness :
  placeholders page0 = 0
  /\ failed Rejected
  /\ failed quota_error
  /\ exists s,
       run ask_once (start page0) = Some s
       /\ messages (state_after (handleSend_settle Rejected) (panel s))
          = [greeting; message "Why?" "user";
             message ("Error: " ++ could_not_connect) "bot"]
       /\ messages (state_after (handleSend_settle quota_error) (panel s))
          = [greeting; message "Why?" "user"; message "Error: Quota exceeded" "bot"].
Proof.
  assert (Hr : failed Rejected) by (left; reflexivity).
  assert (Hq : failed quota_error) by (right; eexists; reflexivity).
  split; [reflexivity|]. split; [exact Hr|]. split; [exact Hq|].
  eexists. split; [vm_compute; reflexivity|].
  match goal with
  | |- context [state_after _ (panel ?s)] =>
      assert (Hrun : run ask_once (start page0) = Some s) by (vm_compute; reflexivity);
      destruct (failed_request_reports_error page0 ask_once s Rejected eq_refl Hrun Hr)
        as (m1 & E1 & _ & Hm1 & _);
      destruct (failed_request_reports_error page0 ask_once s quota_error eq_refl Hrun Hq)
        as (m2 & E2 & _ & _ & Hm2 & _)
  end.
  rewrite E1, E2, (Hm1 eq_refl).
  rewrite (Hm2 _ (JSString "Quota exceeded") "Quota exceeded" eq_refl eq_refl eq_refl eq_refl).
  split; reflexivity.
Defined.

(** ** The event loop: the log across reconciliations *)

Lemma call_handleSend_log (s : System) :
  currentVideoId (panel (call_handleSend s)) = currentVideoId (panel s)
  /\ exists later,
       messages (panel (call_handleSend s)) = (messages (panel s) ++ later)%list.
Proof.
  unfold call_handleSend.
  destruct (handleSend_begin_cases (panel s)) as [E | (videoId & Hc & Hq)].
  - rewrite E, with_panel_same. split; [reflexivity|].
    exists []. now rewrite app_nil_r.
  - rewrite (handleSend_begin_valid _ _ Hc Hq). destruct Hc as [Hcur _].
    split; [simpl; now rewrite Hcur|].
    exists [message (trim (inputEl_value (panel s))) "user"].
    unfold messages. simpl. rewrite filter_app. reflexivity.
Qed.

Lemma settle_log (outcome : FetchOutcome) (p : Panel) :
  currentVideoId (state_after (handleSend_settle outcome) p) = currentVideoId p
  /\ exists later,
       messages (state_after (handleSend_settle outcome) p) = (messages p ++ later)%list.
Proof.
  destruct (handleSend_settle_effect outcome p) as (text & _ & Hm & _ & _ & _ & Hcur).
  split; [exact Hcur | eauto].
Qed.

(** A turn of the event loop whose reconciliation, if it is one, changes
    nothing keeps the current video and only adds to the log. *)
Lemma step_extends_log (e : Event) (s s' : System) :
  step e s = Some s' ->
  (forall tab, e = QueryFulfilled tab -> reconcile tab (panel s) = panel s) ->
  currentVideoId (panel s') = currentVideoId (panel s)
  /\ exists later, messages (panel s') = (messages (panel s) ++ later)%list.
Proof.
  intros Hstep Hsame.
  assert (Hrefl : forall t : System,
             panel t = panel s ->
             currentVideoId (panel t) = currentVideoId (panel s)
             /\ exists later, messages (panel t) = (messages (panel s) ++ later)%list).
  { intros t ->. split; [reflexivity|]. exists []. now rewrite app_nil_r. }
  destruct e as [status active| |tab|value| |key|i response|i json]; simpl in Hstep.
  - destruct status as [st|]; [destruct ((st =? "complete") && active)|];
      injection Hstep as <-; apply Hrefl; reflexivity.
  - injection Hstep as <-. apply Hrefl. reflexivity.
  - destruct (queries s) as [|n]; [discriminate|]. injection Hstep as <-.
    apply Hrefl. simpl. apply Hsame. reflexivity.
  - destruct (inputEl_disabled (panel s)); [discriminate|]. injection Hstep as <-.
    split; [reflexivity|]. exists []. now rewrite app_nil_r.
  - destruct (sendBtn_disabled (panel s)); [discriminate|]. injection Hstep as <-.
    apply call_handleSend_log.
  - destruct (inputEl_disabled (panel s)); [discriminate|].
    destruct (key =? "Enter"); injection Hstep as <-;
      [apply call_handleSend_log | apply Hrefl; reflexivity].
  - destruct (nth_error (inflight s) i) as [[|ok]|]; try discriminate.
    destruct response as [ok|]; injection Hstep as <-;
      [apply Hrefl; reflexivity | apply settle_log].
  - destruct (nth_error (inflight s) i) as [[|ok]|]; try discriminate.
    injection Hstep as <-. apply settle_log.
Qed.

Lemma run_extends_log (events : list Event) :
  forall s s',
    run events s = Some s' ->
    (forall tab p, In (QueryFulfilled tab) events ->
                   currentVideoId p = currentVideoId (panel s) ->
                   reconcile tab p = p) ->
    currentVideoId (panel s') = currentVideoId (panel s)
    /\ exists later, messages (panel s') = (messages (panel s) ++ later)%list.
Proof.
  induction events as [|e events IH]; intros s s' Hrun Hsame; simpl in Hrun.
  - injection Hrun as <-. split; [reflexivity|]. exists []. now rewrite app_nil_r.
  - destruct (step e s) as [s1|] eqn:Hstep; [|discriminate].
    destruct (step_extends_log e s s1 Hstep) as (Hcur1 & l1 & Hl1).
    { intros tab ->. apply Hsame; [left; reflexivity | reflexivity]. }
    destruct (IH s1 s' Hrun) as (Hcur & l & Hl).
    { intros tab p Hin Hp. apply Hsame; [right; exact Hin | congruence]. }
    split; [congruence|]. exists (l1 ++ l)%list. rewrite Hl, Hl1, app_assoc. reflexivity.
Qed.

(** C1.  Reconciling on an unchanged video changes nothing: whatever the
    number of reconciliations that observe the video the panel is connected
    to, the panel (video, status line, controls and chat history) is the one
    before them.  Started from any panel, a run of reconciliations that
    observe one video ends in the panel that the first of them leaves, so
    the log is cleared at most once.  In the event loop, as long as every
    reconciliation observes the video the panel is connected to, whatever
    else happens in between, the panel stays connected to it and the log
    only grows: what was in it stays at its head. *)
Theorem reconcile_idempotent_on_unchanged_video (videoId : string) :
  (forall tabs p,
     Forall (fun tab => observes_video tab videoId) tabs ->
     currentVideoId p = Some videoId ->
     reconcile_all tabs p = p)
  /\ (forall tab tabs p,
        observes_video tab videoId ->
        Forall (fun t => observes_video t videoId) tabs ->
        reconcile_all (tab :: tabs) p = reconcile tab p)
  /\ (forall events s s',
        reconciliations_observe videoId events ->
        currentVideoId (panel s) = Some videoId ->
        run events s = Some s' ->
        currentVideoId (panel s') = Some videoId
        /\ exists later, messages (panel s') = (messages (panel s) ++ later)%list).
Proof.
  split; [|split].
  - intros tabs p Hall Hcur. apply (reconcile_all_same_video _ _ Hall _ Hcur).
  - intros tab tabs p Htab Hall. apply (reconcile_all_collapses _ _ _ _ Htab Hall).
  - intros events s s' Hobs Hcur Hrun.
    destruct (run_extends_log events s s' Hrun) as (Hcur' & Hlog).
    { intros tab p Hin Hp. apply (reconcile_same_video _ videoId).
      - apply Hobs, Hin.
      - congruence. }
    split; [congruence | exact Hlog].
Qed.

Lemma reconciled_while_asking_observe :
  reconciliations_observe "abc123" reconciled_while_asking.
Proof.
  intros tab Hin. simpl in Hin.
  repeat (destruct Hin as [Hin | Hin];
          [try discriminate; injection Hin as <-; exact observes_abc123|]).
  contradiction.
Defined.

Lemma reconcile_idempotent_on_unchanged_video_witness :
  let tab := tab_of "https://www.youtube.com/watch?v=abc123" in
  let p := reconcile tab page0 in
  Forall (fun t => observes_video t "abc123") [tab; tab; tab]
  /\ currentVideoId p = Some "abc123"
  /\ reconcile_all [tab; tab; tab] p = p
  /\ reconcile_all [tab; tab; tab; tab] page0 = p
  /\ reconciliations_observe "abc123" reconciled_while_asking
  /\ exists s',
       run reconciled_while_asking asking = Some s'
       /\ currentVideoId (panel s') = Some "abc123"
       /\ exists later, messages (panel s') = (messages (panel asking) ++ later)%list.
Proof.
  intros tab p.
  assert (Hall : Forall (fun t => observes_video t "abc123") [tab; tab; tab]).
  { repeat constructor; exact observes_abc123. }
  destruct (reconcile_idempotent_on_unchanged_video "abc123") as (Hsame & Hfirst & Hloop).
  split; [exact Hall|]. split; [reflexivity|].
  split; [apply (Hsame _ _ Hall); reflexivity|].
  split; [apply (Hfirst _ _ _ observes_abc123 Hall)|].
  split; [exact reconciled_while_asking_observe|].
  eexists. split; [vm_compute; reflexivity|].
  apply (Hloop reconciled_while_asking asking _ reconciled_while_asking_observe eq_refl).
  vm_compute. reflexivity.
Defined.

(** C9.  [handleDisconnect] sets [currentVideoId] to null whatever the
    reason, so the next reconciliation that observes a video, be it the one
    the panel was connected to before, takes it for a new one and replaces
    the chat history by the greeting alone; this is so whatever happens in
    the event loop between the disconnect and that reconciliation. *)
Theorem disconnect_forgets_video
  (reason : string) (tab : option Tab) (videoId : string) (p : Panel) :
  observes_video tab videoId ->
  let q := state_after (handleDisconnect reason) p in
  currentVideoId q = None
  /\ chatHistory q = chatHistory p
  /\ Connected (reconcile tab q) videoId
  /\ chatHistory (reconcile tab q) = [greeting]
  /\ (forall events s s',
        panel s = q ->
        no_reconciliation events ->
        run events s = Some s' ->
        currentVideoId (panel s') = None
        /\ Connected (reconcile tab (panel s')) videoId
        /\ chatHistory (reconcile tab (panel s')) = [greeting]).
Proof.
  intros Htab q.
  assert (Hfresh : forall r, currentVideoId r = None ->
                             Connected (reconcile tab r) videoId
                             /\ chatHistory (reconcile tab r) = [greeting]).
  { intros r Hr. rewrite (reconcile_other_video _ _ _ Htab) by congruence.
    destruct Htab as (search & _ & _ & Hne). unfold Connected. simpl. auto. }
  assert (Hq : currentVideoId q = None) by reflexivity.
  split; [exact Hq|]. split; [reflexivity|].
  destruct (Hfresh q Hq) as [Hc Hh]. split; [exact Hc|]. split; [exact Hh|].
  intros events s s' Hs Hnone Hrun.
  destruct (run_extends_log events s s' Hrun) as (Hcur & _).
  { intros t r Hin _. destruct (Hnone t Hin). }
  assert (Hcur' : currentVideoId (panel s') = None) by (rewrite Hcur, Hs; exact Hq).
  split; [exact Hcur' | apply Hfresh, Hcur'].
Qed.

Lemma answered_after_leaving_no_reconciliation :
  no_reconciliation answered_after_leaving.
Proof.
  intros tab Hin. simpl in Hin.
  repeat (destruct Hin as [Hin | Hin]; [discriminate|]). contradiction.
Defined.

Lemma disconnect_forgets_video_witness :
  let tab := tab_of "https://www.youtube.com/watch?v=abc123" in
  let p := set_chatHistory [greeting; message "hi" "user"; message "hello" "bot"]
             (reconcile tab page0) in
  let away := {| panel := reconcile (tab_of "https://example.com")
                            (snd (handleSend_begin (asked "Why?")));
                 queries := 0; inflight := [AwaitingFetch]; fetched := [] |} in
  observes_video tab "abc123"
  /\ currentVideoId p = Some "abc123"
  /\ chatHistory (reconcile tab p) = chatHistory p
  /\ chatHistory (reconcile tab (reconcile (tab_of "https://example.com") p)) = [greeting]
  /\ no_reconciliation answered_after_leaving
  /\ exists s',
       run answered_after_leaving away = Some s'
       /\ chatHistory (reconcile tab (panel s')) = [greeting].
Proof.
  intros tab p away.
  destruct (disconnect_forgets_video "Not YouTube" tab "abc123" p observes_abc123)
    as (_ & _ & _ & H & _).
  destruct (disconnect_forgets_video "Not YouTube" tab "abc123"
              (snd (handleSend_begin (asked "Why?"))) observes_abc123)
    as (_ & _ & _ & _ & Hloop).
  split; [exact observes_abc123|]. split; [reflexivity|]. split; [reflexivity|].
  split; [exact H|]. split; [exact answered_after_leaving_no_reconciliation|].
  eexists. split; [vm_compute; reflexivity|].
  apply (Hloop answered_after_leaving away _ eq_refl
           answered_after_leaving_no_reconciliation).
  vm_compute. reflexivity.
Defined.

(** ** Further properties of the reconciliation *)

(** A tab has no watch-page URL, or a watch-page URL that can be read, or
    one on which the URL constructor throws before anything is assigned. *)
Lemma tab_trichotomy (tab : option Tab) :
  readable tab \/ (forall p, connectToCurrentTab tab p = (Throw, p)).
Proof.
  destruct tab as [[[tab_url|]]|];
    try (left; left; intros u H; discriminate).
  destruct (includes "youtube.com/watch" tab_url) eqn:Hinc.
  - destruct (URL_search tab_url) as [search|] eqn:Hsearch.
    + left. right. exists search, tab_url. auto.
    + right. intro p. eff_unfold.
      rewrite (includes_nonempty _ Hinc), Hinc, Hsearch. reflexivity.
  - left. left. intros u H. injection H as <-. exact Hinc.
Qed.

(** The four ways a reconciliation ends, with the two reasons it
    disconnects for and the video it connects to. *)
Lemma reconcile_outcomes (tab : option Tab) (p : Panel) :
  reconcile tab p = p
  \/ reconcile tab p = state_after (handleDisconnect "Not YouTube") p
  \/ reconcile tab p = state_after (handleDisconnect "No Video ID") p
  \/ (exists videoId,
        videoId <> ""
        /\ currentVideoId p <> Some videoId
        /\ reconcile tab p =
           {| currentVideoId := Some videoId;
              statusEl_textContent := "Connected";
              statusEl_className := "status connected";
              inputEl_value := inputEl_value p;
              inputEl_disabled := false;
              inputEl_focused := inputEl_focused p;
              sendBtn_disabled := false;
              chatHistory := [greeting] |}).
Proof.
  destruct (tab_trichotomy tab) as [[Hnot | (search & Hpage)] | Hthrow].
  - right. left. rewrite (reconcile_not_youtube _ _ Hnot). reflexivity.
  - rewrite (reconcile_watch_page _ _ _ Hpage).
    destruct (video_identifier search) as [videoId|]; simpl;
      [|right; right; left; reflexivity].
    destruct (string_dec videoId "") as [-> | Hne];
      [right; right; left; reflexivity|].
    rewrite (nonempty_eqb _ Hne). simpl.
    destruct (currentVideoId p) as [current|] eqn:Hcur.
    + destruct (videoId =? current) eqn:E.
      * left. reflexivity.
      * right. right. right. exists videoId. apply String.eqb_neq in E.
        split; [exact Hne|]. split; [congruence | reflexivity].
    + right. right. right. exists videoId.
      split; [exact Hne|]. split; [discriminate | reflexivity].
  - left. unfold reconcile, state_after. rewrite Hthrow. reflexivity.
Qed.

(** X1.  Reconciling twice on the same tab is reconciling once, for every
    tab: a watch page with or without a video, any other page, no tab at
    all, and a URL on which the constructor throws. *)
Theorem reconcile_twice (tab : option Tab) (p : Panel) :
  reconcile tab (reconcile tab p) = reconcile tab p.
Proof.
  destruct (tab_trichotomy tab) as [[Hnot | (search & Hpage)] | Hthrow].
  - rewrite !(reconcile_not_youtube _ _ Hnot). reflexivity.
  - rewrite (reconcile_watch_page _ _ (reconcile tab p) Hpage).
    rewrite (reconcile_watch_page _ _ p Hpage).
    destruct (ToBoolean (as_value (video_identifier search))); [|reflexivity].
    destruct (strict_eq (video_identifier search) (currentVideoId p)) eqn:E.
    + rewrite E. reflexivity.
    + cbn [currentVideoId]. rewrite strict_eq_refl. reflexivity.
  - unfold reconcile, state_after. rewrite !Hthrow. reflexivity.
Qed.

(** X2.  The last reconciliation wins: on a tab that can be read, the
    session that a reconciliation leaves (current video and status line)
    depends on the tab alone, not on the panel it started from, as long as
    the status line of that panel agreed with its current video. *)
Theorem session_determined_by_tab (tab : option Tab) (p q : Panel) :
  readable tab ->
  status_consistent p ->
  status_consistent q ->
  session (reconcile tab p) = session (reconcile tab q).
Proof.
  assert (Hone : forall r search,
             watch_page tab search ->
             status_consistent r ->
             session (reconcile tab r)
             = if ToBoolean (as_value (video_identifier search))
               then (video_identifier search, "Connected", "status connected")
               else (None, "No Video ID", "status error")).
  { intros r search Hpage Hr. rewrite (reconcile_watch_page _ _ _ Hpage).
    destruct (video_identifier search) as [videoId|]; [|reflexivity].
    cbn [as_value ToBoolean].
    destruct (negb (videoId =? "")); [|reflexivity].
    destruct (strict_eq (Some videoId) (currentVideoId r)) eqn:E; [|reflexivity].
    apply strict_eq_true in E.
    destruct (Hr videoId (eq_sym E)) as (_ & Htext & Hclass).
    unfold session. rewrite <- E, Htext, Hclass. reflexivity. }
  intros [Hnot | (search & Hpage)] Hp Hq.
  - rewrite !(reconcile_not_youtube _ _ Hnot). reflexivity.
  - rewrite (Hone p search Hpage Hp), (Hone q search Hpage Hq). reflexivity.
Qed.

Lemma status_consistent_none (p : Panel) :
  currentVideoId p = None -> status_consistent p.
Proof. intros H videoId E. congruence. Qed.

Lemma status_consistent_xyz789 :
  status_consistent (reconcile (tab_of "https://www.youtube.com/watch?v=xyz789") page0).
Proof.
  intros videoId H. injection H as <-.
  split; [discriminate|]. split; reflexivity.
Defined.

Lemma readable_abc123 : readable (tab_of "https://www.youtube.com/watch?v=abc123").
Proof. right. exists "?v=abc123", "https://www.youtube.com/watch?v=abc123". repeat split. Defined.

Lemma session_determined_by_tab_witness :
  let tab := tab_of "https://www.youtube.com/watch?v=abc123" in
  let q := reconcile (tab_of "https://www.youtube.com/watch?v=xyz789") page0 in
  readable tab
  /\ status_consistent page0
  /\ status_consistent q
  /\ session (reconcile tab page0) = session (reconcile tab q).
Proof.
  intros tab q.
  assert (H0 : status_consistent page0) by (apply status_consistent_none; reflexivity).
  split; [exact readable_abc123|]. split; [exact H0|].
  split; [exact status_consistent_xyz789|].
  exact (session_determined_by_tab tab page0 q readable_abc123 H0 status_consistent_xyz789).
Defined.

(** X3.  A reconciliation never touches the text typed in the input, and it
    leaves the chat history as it is or replaces it by the greeting alone,
    the latter exactly when it changes the current video to a new one. *)
Theorem reconcile_keeps_draft (tab : option Tab) (p : Panel) :
  inputEl_value (reconcile tab p) = inputEl_value p
  /\ ((chatHistory (reconcile tab p) = chatHistory p
       /\ (currentVideoId (reconcile tab p) = currentVideoId p
           \/ currentVideoId (reconcile tab p) = None))
      \/ (chatHistory (reconcile tab p) = [greeting]
          /\ currentVideoId (reconcile tab p) <> currentVideoId p
          /\ currentVideoId (reconcile tab p) <> None)).
Proof.
  destruct (reconcile_outcomes tab p) as [E | [E | [E | (videoId & _ & Hne & E)]]];
    rewrite E; try rewrite handleDisconnect_state; simpl.
  - auto.
  - auto.
  - auto.
  - split; [reflexivity|]. right. split; [reflexivity|].
    split; [congruence | discriminate].
Qed.

(** ** Further properties of the event loop *)

Lemma begin_panel_cases (p : Panel) :
  snd (handleSend_begin p) = p
  \/ exists videoId,
       Connected p videoId
       /\ trim (inputEl_value p) <> ""
       /\ snd (handleSend_begin p) =
          {| currentVideoId := Some videoId;
             statusEl_textContent := statusEl_textContent p;
             statusEl_className := statusEl_className p;
             inputEl_value := "";
             inputEl_disabled := true;
             inputEl_focused := false;
             sendBtn_disabled := true;
             chatHistory := (chatHistory p
                             ++ [message (trim (inputEl_value p)) "user"; loading])%list |}.
Proof.
  destruct (handleSend_begin_cases p) as [E | (videoId & Hc & Hq)].
  - left. rewrite E. reflexivity.
  - right. exists videoId. rewrite (handleSend_begin_valid _ _ Hc Hq). auto.
Qed.

Lemma panel_call_handleSend (s : System) :
  panel (call_handleSend s) = snd (handleSend_begin (panel s)).
Proof.
  unfold call_handleSend.
  destruct (handleSend_begin (panel s)) as [[[request|]|] p]; reflexivity.
Qed.

(** What a turn of the event loop does to the panel. *)
Lemma step_panel_cases (e : Event) (s s' : System) :
  step e s = Some s' ->
  panel s' = panel s
  \/ (exists tab, e = QueryFulfilled tab /\ panel s' = reconcile tab (panel s))
  \/ (exists value, panel s' = set_inputEl_value value (panel s))
  \/ ((inputEl_disabled (panel s) = false \/ sendBtn_disabled (panel s) = false)
      /\ panel s' = snd (handleSend_begin (panel s)))
  \/ (exists outcome, panel s' = state_after (handleSend_settle outcome) (panel s)).
Proof.
  intro Hstep.
  destruct e as [status active| |tab|value| |key|i response|i json]; simpl in Hstep.
  - destruct status as [st|]; [destruct ((st =? "complete") && active)|];
      injection Hstep as <-; auto.
  - injection Hstep as <-. auto.
  - destruct (queries s) as [|n]; [discriminate|]. injection Hstep as <-.
    right. left. exists tab. split; reflexivity.
  - destruct (inputEl_disabled (panel s)); [discriminate|]. injection Hstep as <-.
    right. right. left. exists value. reflexivity.
  - destruct (sendBtn_disabled (panel s)) eqn:E; [discriminate|]. injection Hstep as <-.
    right. right. right. left. split; [auto | apply panel_call_handleSend].
  - destruct (inputEl_disabled (panel s)) eqn:E; [discriminate|].
    destruct (key =? "Enter"); injection Hstep as <-; [|auto].
    right. right. right. left. split; [auto | apply panel_call_handleSend].
  - destruct (nth_error (inflight s) i) as [[|ok]|]; try discriminate.
    destruct response as [ok|]; injection Hstep as <-; [auto|].
    right. right. right. right. exists Rejected. reflexivity.
  - destruct (nth_error (inflight s) i) as [[|ok]|]; try discriminate.
    injection Hstep as <-.
    right. right. right. right. exists (Fulfilled ok json). reflexivity.
Qed.

(** A property of the panel that the four operations keep holds along
    every run. *)
Lemma run_panel_invariant (I : Panel -> Prop) :
  (forall tab p, I p -> I (reconcile tab p)) ->
  (forall value p, I p -> I (set_inputEl_value value p)) ->
  (forall p, inputEl_disabled p = false \/ sendBtn_disabled p = false ->
             I p -> I (snd (handleSend_begin p))) ->
  (forall outcome p, I p -> I (state_after (handleSend_settle outcome) p)) ->
  forall events s s', run events s = Some s' -> I (panel s) -> I (panel s').
Proof.
  intros Hrec Htyped Hbegin Hsettle.
  induction events as [|e events IH]; intros s s' Hrun Hinv; simpl in Hrun.
  - injection Hrun as <-. exact Hinv.
  - destruct (step e s) as [s1|] eqn:Hstep; [|discriminate].
    apply (IH _ _ Hrun).
    destruct (step_panel_cases _ _ _ Hstep)
      as [E | [(tab & _ & E) | [(value & E) | [(Hon & E) | (outcome & E)]]]];
      rewrite E; auto.
Qed.

Lemma settle_answered (outcome : FetchOutcome) (p : Panel) :
  exists text history,
    state_after (handleSend_settle outcome) p = answered text history p
    /\ (history = remove_by_id "loading-msg" (chatHistory p)
        \/ history = remove_by_id "loading-msg"
                       (remove_by_id "loading-msg" (chatHistory p))).
Proof.
  destruct (handleSend_settle_state outcome p) as (text & _ & [H | H]);
    exists text; eexists; (split; [exact H | auto]).
Qed.

Lemma status_consistent_run (events : list Event) (s s' : System) :
  run events s = Some s' ->
  status_consistent (panel s) -> status_consistent (panel s').
Proof.
  apply (run_panel_invariant status_consistent).
  - intros tab p Hp.
    destruct (reconcile_outcomes tab p) as [E | [E | [E | (videoId & Hne & _ & E)]]];
      rewrite E; try (apply status_consistent_none; reflexivity); [exact Hp|].
    intros v H. injection H as <-. auto.
  - intros value p Hp. exact Hp.
  - intros p _ Hp.
    destruct (begin_panel_cases p) as [E | (videoId & [Hcur _] & _ & E)]; rewrite E;
      [exact Hp|].
    intros v H. injection H as <-. apply (Hp _ Hcur).
  - intros outcome p Hp.
    destruct (settle_answered outcome p) as (text & history & E & _). rewrite E.
    exact Hp.
Qed.

Lemma disconnected_line_run (events : list Event) (s s' : System) :
  run events s = Some s' ->
  (currentVideoId (panel s) = None -> statusEl_textContent (panel s) <> "Connected") ->
  currentVideoId (panel s') = None -> statusEl_textContent (panel s') <> "Connected".
Proof.
  apply (run_panel_invariant
           (fun p => currentVideoId p = None -> statusEl_textContent p <> "Connected")).
  - intros tab p Hp.
    destruct (reconcile_outcomes tab p) as [E | [E | [E | (videoId & _ & _ & E)]]];
      rewrite E; try rewrite handleDisconnect_state; simpl;
      solve [exact Hp | discriminate].
  - intros value p Hp. exact Hp.
  - intros p _ Hp.
    destruct (begin_panel_cases p) as [E | (videoId & _ & _ & E)]; rewrite E;
      [exact Hp | discriminate].
  - intros outcome p Hp.
    destruct (settle_answered outcome p) as (text & history & E & _). rewrite E.
    exact Hp.
Qed.

(** X4.  On every run of the event loop the status line agrees with the
    current video: whenever [currentVideoId] is set it is not empty and the
    line reads Connected with the class of a connection; and if the page
    does not say Connected to begin with, the line reads Connected only
    while a video is current. *)
Theorem status_line_agrees (page : Panel) (events : list Event) (s : System) :
  run events (start page) = Some s ->
  status_consistent (panel s)
  /\ (statusEl_textContent page <> "Connected" ->
      statusEl_textContent (panel s) = "Connected" ->
      exists videoId, Connected (panel s) videoId).
Proof.
  intro Hrun.
  assert (Hs : status_consistent (panel s)).
  { apply (status_consistent_run _ _ _ Hrun), status_consistent_none. reflexivity. }
  split; [exact Hs|]. intros Hpage Hline.
  destruct (currentVideoId (panel s)) as [videoId|] eqn:Hcur.
  - exists videoId. split; [exact Hcur | apply (Hs _ Hcur)].
  - destruct (disconnected_line_run _ _ _ Hrun (fun _ => Hpage) Hcur Hline).
Qed.

Lemma status_line_agrees_witness :
  exists s,
    run two_questions (start page0) = Some s
    /\ statusEl_textContent page0 <> "Connected"
    /\ statusEl_textContent (panel s) = "Connected"
    /\ status_consistent (panel s)
    /\ exists videoId, Connected (panel s) videoId.
Proof.
  eexists. split; [vm_compute; reflexivity|].
  assert (Hpage : statusEl_textContent page0 <> "Connected") by discriminate.
  split; [exact Hpage|]. split; [reflexivity|].
  match goal with
  | |- status_consistent (panel ?final) /\ _ =>
      destruct (status_line_agrees page0 two_questions final) as [Hs Hc];
      [vm_compute; reflexivity|]
  end.
  split; [exact Hs | apply (Hc Hpage); reflexivity].
Defined.

(** X5.  The input and the send button are enabled and disabled together:
    if they agree on the page as loaded, they agree after every run of the
    event loop. *)
Theorem controls_in_step (page : Panel) (events : list Event) (s : System) :
  inputEl_disabled page = sendBtn_disabled page ->
  run events (start page) = Some s ->
  inputEl_disabled (panel s) = sendBtn_disabled (panel s).
Proof.
  intros Hpage Hrun. revert Hrun Hpage.
  apply (run_panel_invariant (fun p => inputEl_disabled p = sendBtn_disabled p)).
  - intros tab p Hp.
    destruct (reconcile_outcomes tab p) as [E | [E | [E | (videoId & _ & _ & E)]]];
      rewrite E; try rewrite handleDisconnect_state; auto.
  - intros value p Hp. exact Hp.
  - intros p _ Hp.
    destruct (begin_panel_cases p) as [E | (videoId & _ & _ & E)]; rewrite E; auto.
  - intros outcome p Hp.
    destruct (settle_answered outcome p) as (text & history & E & _). rewrite E.
    reflexivity.
Qed.

Lemma controls_in_step_witness :
  inputEl_disabled page0 = sendBtn_disabled page0
  /\ exists s,
       run switch_during_request (start page0) = Some s
       /\ inputEl_disabled (panel s) = sendBtn_disabled (panel s).
Proof.
  split; [reflexivity|]. eexists. split; [vm_compute; reflexivity|].
  apply (controls_in_step page0 switch_during_request); [reflexivity|].
  vm_compute. reflexivity.
Defined.

Lemma remove_by_id_greeting (rest : list Element) :
  remove_by_id "loading-msg" (greeting :: rest)
  = greeting :: remove_by_id "loading-msg" rest.
Proof. reflexivity. Qed.

(** X6.  While the panel is connected the chat history begins with the
    greeting, on every run of the event loop and whatever the page held:
    submissions and answers only add below it. *)
Theorem greeting_heads_log (page : Panel) (events : list Event) (s : System) :
  run events (start page) = Some s ->
  greeting_first (panel s).
Proof.
  intro Hrun.
  assert (H0 : greeting_first (panel (start page))) by (intros v H; discriminate).
  revert Hrun H0. apply (run_panel_invariant greeting_first).
  - intros tab p Hp.
    destruct (reconcile_outcomes tab p) as [E | [E | [E | (videoId & _ & _ & E)]]];
      rewrite E; try rewrite handleDisconnect_state.
    + exact Hp.
    + intros v H. discriminate.
    + intros v H. discriminate.
    + intros v _. exists []. reflexivity.
  - intros value p Hp. exact Hp.
  - intros p _ Hp.
    destruct (begin_panel_cases p) as [E | (videoId & [Hcur _] & _ & E)]; rewrite E;
      [exact Hp|].
    intros v _. destruct (Hp _ Hcur) as (rest & Hrest). simpl. rewrite Hrest.
    eexists. reflexivity.
  - intros outcome p Hp.
    destruct (settle_answered outcome p) as (text & history & E & Hh). rewrite E.
    intros v Hcur. destruct (Hp v Hcur) as (rest & Hrest). simpl.
    destruct Hh as [-> | ->]; rewrite Hrest, ?remove_by_id_greeting;
      eexists; reflexivity.
Qed.

Lemma greeting_heads_log_witness :
  exists s,
    run two_questions (start page0) = Some s
    /\ greeting_first (panel s)
    /\ currentVideoId (panel s) = Some "abc123".
Proof.
  eexists. split; [vm_compute; reflexivity|]. split; [|reflexivity].
  apply (greeting_heads_log page0 two_questions). vm_compute. reflexivity.
Defined.

Lemma placeholder_last_at_most_one (p : Panel) :
  placeholder_last p -> placeholders p <= 1.
Proof.
  intros [H | (_ & history & Hh & Hnone)]; [lia|].
  unfold placeholders. rewrite Hh, filter_app, length_app, Hnone. simpl. lia.
Qed.

Lemma placeholder_last_run (events : list Event) (s s' : System) :
  run events s = Some s' ->
  placeholder_last (panel s) -> placeholder_last (panel s').
Proof.
  apply (run_panel_invariant placeholder_last).
  - intros tab p Hp.
    destruct (reconcile_outcomes tab p) as [E | [E | [E | (videoId & _ & _ & E)]]];
      rewrite E; try rewrite handleDisconnect_state.
    + exact Hp.
    + destruct Hp as [H | (_ & Hh)]; [left; exact H | right; split; [split|]; auto].
    + destruct Hp as [H | (_ & Hh)]; [left; exact H | right; split; [split|]; auto].
    + left. reflexivity.
  - intros value p Hp. exact Hp.
  - intros p Hon Hp.
    destruct (begin_panel_cases p) as [E | (videoId & _ & _ & E)]; rewrite E;
      [exact Hp|].
    assert (Hnone : placeholders p = 0).
    { destruct Hp as [H | ([Hi Hs] & _)]; [exact H | destruct Hon; congruence]. }
    right. split; [split; reflexivity|].
    exists (chatHistory p ++ [message (trim (inputEl_value p)) "user"])%list.
    split; [simpl; rewrite <- app_assoc; reflexivity|].
    rewrite filter_app, length_app. simpl. unfold placeholders in Hnone. lia.
  - intros outcome p Hp. left.
    apply settle_clears_placeholder, placeholder_last_at_most_one, Hp.
Qed.

(** X7.  The placeholder is always at the bottom: on every run of the event
    loop from a page without placeholder, the chat history holds no
    placeholder, or exactly one, as its last element, with both controls
    disabled. *)
Theorem placeholder_at_bottom (page : Panel) (events : list Event) (s : System) :
  placeholders page = 0 ->
  run events (start page) = Some s ->
  placeholder_last (panel s).
Proof.
  intros Hpage Hrun. apply (placeholder_last_run _ _ _ Hrun). left. exact Hpage.
Qed.

Lemma placeholder_at_bottom_witness :
  placeholders page0 = 0
  /\ exists s,
       run ask_once (start page0) = Some s
       /\ placeholders (panel s) = 1
       /\ placeholder_last (panel s).
Proof.
  split; [reflexivity|]. eexists. split; [vm_compute; reflexivity|].
  split; [reflexivity|].
  apply (placeholder_at_bottom page0 ask_once); [reflexivity|].
  vm_compute. reflexivity.
Defined.

(** X8.  A turn of the event loop never edits, reorders or drops a message
    of the log, with one exception: it only adds messages at its end, or it
    is a reconciliation that makes another video the current one and leaves
    the greeting alone.  A disconnect, in particular, keeps the log. *)
Theorem log_grows_or_resets (e : Event) (s s' : System) :
  step e s = Some s' ->
  (exists later, messages (panel s') = (messages (panel s) ++ later)%list)
  \/ (is_reconciliation e = true
      /\ chatHistory (panel s') = [greeting]
      /\ currentVideoId (panel s') <> currentVideoId (panel s)
      /\ currentVideoId (panel s') <> None).
Proof.
  intro Hstep.
  destruct (is_reconciliation e) eqn:Hrec.
  - destruct e as [| |tab| | | | |]; try discriminate. simpl in Hstep.
    destruct (queries s) as [|n]; [discriminate|]. injection Hstep as <-.
    cbn [panel with_queries with_panel].
    destruct (reconcile_outcomes tab (panel s))
      as [E | [E | [E | (videoId & _ & Hne & E)]]];
      rewrite E; try rewrite handleDisconnect_state.
    + left. exists []. now rewrite app_nil_r.
    + left. exists []. unfold messages. simpl. now rewrite app_nil_r.
    + left. exists []. unfold messages. simpl. now rewrite app_nil_r.
    + right. split; [reflexivity|]. split; [reflexivity|].
      split; [simpl; congruence | discriminate].
  - left. apply (step_extends_log e s s' Hstep).
    intros tab ->. discriminate.
Qed.

Lemma log_grows_or_resets_witness :
  exists s s',
    run ask_once (start page0) = Some s
    /\ step (FetchSettled 0 Throw) s = Some s'
    /\ exists later, messages (panel s') = (messages (panel s) ++ later)%list.
Proof.
  do 2 eexists. split; [vm_compute; reflexivity|].
  match goal with
  | |- step ?e ?s = Some ?s' /\ _ =>
      assert (Hstep : step e s = Some s') by (vm_compute; reflexivity)
  end.
  split; [exact Hstep|].
  destruct (log_grows_or_resets _ _ _ Hstep) as [H | (Hrec & _)];
    [exact H | discriminate].
Defined.

(** ** Further properties of the submission *)



Lemma call_handleSend_guard (s : System) :
  trim (inputEl_value (panel s)) = "" \/ currentVideoId (panel s) = None ->
  call_handleSend s = s.
Proof.
  intro H. unfold call_handleSend.
  rewrite (handleSend_begin_guard (panel s)) by tauto. apply with_panel_same.
Qed.

(** X10.  A request settled after a disconnect enables the controls although
    no video is current: the status line keeps the reason of the disconnect,
    both controls are enabled and the input is focused; whatever is typed
    then, [handleSend] returns at its guard. *)
Theorem answer_after_disconnect_enables_controls
  (reason : string) (outcome : FetchOutcome) (p : Panel) :
  let q := state_after (handleSend_settle outcome)
             (state_after (handleDisconnect reason) p) in
  Disconnected q reason
  /\ controls_enabled q
  /\ inputEl_focused q = true
  /\ (forall value s, panel s = set_inputEl_value value q -> call_handleSend s = s).
Proof.
  intro q. subst q.
  destruct (settle_answered outcome (state_after (handleDisconnect reason) p))
    as (text & history & E & _).
  rewrite E, handleDisconnect_state. unfold Disconnected, controls_enabled. simpl.
  repeat split.
  intros value s Hs. apply call_handleSend_guard. right. rewrite Hs. reflexivity.
Qed.

(** X11.  Calling [handleSend] twice in a row sends one request: the first
    call empties the input, so the second returns at the guard. *)
Theorem double_submit_sends_once (s : System) :
  call_handleSend (call_handleSend s) = call_handleSend s.
Proof.
  destruct (handleSend_begin_cases (panel s)) as [G | (videoId & Hc & Hq)].
  - assert (E : call_handleSend s = s).
    { unfold call_handleSend. rewrite G. apply with_panel_same. }
    rewrite !E. reflexivity.
  - apply call_handleSend_guard. left.
    rewrite panel_call_handleSend, (handleSend_begin_valid _ _ Hc Hq). reflexivity.
Qed.

(** X12.  A success response whose body has no [answer], or whose [answer]
    is null, is shown as an empty bot message: no error is reported. *)
Theorem missing_answer_gives_empty_message (data answer : JSValue) (p : Panel) :
  Get data "answer" = Normal answer ->
  answer = JSUndefined \/ answer = JSNull ->
  state_after (handleSend_settle (Fulfilled true (Normal data))) p
  = answered "" (remove_by_id "loading-msg" (chatHistory p)) p.
Proof.
  intros Hget Hanswer. settle_unfold. rewrite Hget.
  destruct Hanswer as [-> | ->]; reflexivity.
Qed.

Lemma missing_answer_gives_empty_message_witness :
  let p := snd (handleSend_begin (asked "Why?")) in
  Get (JSObject [("reply", JSString "It's a tutorial.")]) "answer" = Normal JSUndefined
  /\ messages (state_after (handleSend_settle no_answer) p)
     = [greeting; message "Why?" "user"; message "" "bot"].
Proof.
  intro p. split; [reflexivity|].
  unfold no_answer.
  rewrite (missing_answer_gives_empty_message
             (JSObject [("reply", JSString "It's a tutorial.")]) JSUndefined p
             eq_refl (or_introl eq_refl)).
  reflexivity.
Defined.

(** X13.  A success response whose body cannot be used (it is null, or its
    [answer] has no string form) is reported like an unreachable service:
    the [try] block throws after it has removed the placeholder, the
    [catch] block removes once more and appends the could-not-connect
    message. *)
Theorem unusable_success_reported_as_unreachable (data : JSValue) (p : Panel) :
  (Get data "answer" = Throw
   \/ exists answer, Get data "answer" = Normal answer /\ DOMString answer = Throw) ->
  state_after (handleSend_settle (Fulfilled true (Normal data))) p
  = answered ("Error: " ++ could_not_connect)
      (remove_by_id "loading-msg" (remove_by_id "loading-msg" (chatHistory p))) p.
Proof.
  intros [Hget | (answer & Hget & Htext)]; settle_unfold; rewrite Hget; simpl.
  - reflexivity.
  - rewrite Htext. reflexivity.
Qed.

Lemma unusable_success_reported_as_unreachable_witness :
  let p := snd (handleSend_begin (asked "Why?")) in
  Get JSNull "answer" = Throw
  /\ messages (state_after (handleSend_settle null_body) p)
     = [greeting; message "Why?" "user"; message ("Error: " ++ could_not_connect) "bot"].
Proof.
  intro p. split; [reflexivity|].
  unfold null_body.
  rewrite (unusable_success_reported_as_unreachable JSNull p (or_introl eq_refl)).
  reflexivity.
Defined.

Lemma remove_by_id_appended (history : list Element) :
  length (filter is_placeholder history) = 0 ->
  remove_by_id "loading-msg" (history ++ [loading]) = history.
Proof.
  induction history as [|e history IH]; [reflexivity|].
  simpl. unfold is_placeholder at 1.
  destruct (id e =? "loading-msg"); simpl; [discriminate|].
  intro H. now rewrite IH.
Qed.

(** X14.  Showing and removing the placeholder is a round trip on the
    elements of the chat history: when it holds no placeholder,
    [removeLoading] after [appendLoading] leaves the elements it had, in
    their order, and [removeLoading] alone removes nothing.  (The scroll
    position, which [appendLoading] moves to the bottom, is not part of
    this.) *)
Theorem loading_round_trip (p : Panel) :
  placeholders p = 0 ->
  chatHistory (state_after removeLoading (state_after appendLoading p)) = chatHistory p
  /\ chatHistory (state_after removeLoading p) = chatHistory p.
Proof.
  intro H. unfold state_after, removeLoading, appendLoading, assign. simpl.
  rewrite (remove_by_id_appended _ H), (remove_by_id_absent _ H). auto.
Qed.

Lemma loading_round_trip_witness :
  placeholders (asked "Why?") = 0
  /\ chatHistory (state_after removeLoading (state_after appendLoading (asked "Why?")))
     = [greeting].
Proof.
  split; [reflexivity|].
  rewrite (proj1 (loading_round_trip (asked "Why?") eq_refl)). reflexivity.
Defined.

(** ** Accounting: requests, suspended calls, reconciliations *)

Lemma call_handleSend_requests (s : System) :
  (fetched (call_handleSend s) = fetched s
   /\ inflight (call_handleSend s) = inflight s)
  \/ exists request,
       chat_request request
       /\ fetched (call_handleSend s) = (fetched s ++ [request])%list
       /\ inflight (call_handleSend s) = (inflight s ++ [AwaitingFetch])%list.
Proof.
  unfold call_handleSend.
  destruct (handleSend_begin_cases (panel s)) as [E | (videoId & Hc & Hq)].
  - left. rewrite E. auto.
  - right. rewrite (handleSend_begin_valid _ _ Hc Hq). eexists.
    split; [|split; reflexivity].
    unfold chat_request. simpl. repeat split.
    exists videoId, (trim (inputEl_value (panel s))).
    destruct Hc as [_ Hid]. auto.
Qed.

(** A turn of the event loop passes no request to [fetch] and suspends no
    new call, unless it is a submission, which passes at most one. *)
Lemma step_requests (e : Event) (s s' : System) :
  step e s = Some s' ->
  (fetched s' = fetched s /\ length (inflight s') <= length (inflight s))
  \/ (is_submission e = true
      /\ exists request,
           chat_request request
           /\ fetched s' = (fetched s ++ [request])%list
           /\ inflight s' = (inflight s ++ [AwaitingFetch])%list).
Proof.
  intro Hstep.
  assert (Hcall : forall e0, is_submission e0 = true ->
            (fetched (call_handleSend s) = fetched s
             /\ length (inflight (call_handleSend s)) <= length (inflight s))
            \/ (is_submission e0 = true
                /\ exists request,
                     chat_request request
                     /\ fetched (call_handleSend s) = (fetched s ++ [request])%list
                     /\ inflight (call_handleSend s)
                        = (inflight s ++ [AwaitingFetch])%list)).
  { intros e0 He0.
    destruct (call_handleSend_requests s) as [[Hf Hi] | H]; [|auto].
    left. rewrite Hf, Hi. auto. }
  destruct e as [status active| |tab|value| |key|i response|i json]; simpl in Hstep.
  - destruct status as [st|]; [destruct ((st =? "complete") && active)|];
      injection Hstep as <-; auto.
  - injection Hstep as <-. auto.
  - destruct (queries s) as [|n]; [discriminate|]. injection Hstep as <-. auto.
  - destruct (inputEl_disabled (panel s)); [discriminate|]. injection Hstep as <-. auto.
  - destruct (sendBtn_disabled (panel s)); [discriminate|]. injection Hstep as <-.
    apply Hcall. reflexivity.
  - destruct (inputEl_disabled (panel s)); [discriminate|].
    destruct (key =? "Enter") eqn:Hkey; injection Hstep as <-; [|auto].
    apply Hcall. exact Hkey.
  - destruct (nth_error (inflight s) i) as [[|ok]|] eqn:Hnth; try discriminate.
    destruct response as [ok|]; injection Hstep as <-; left; simpl.
    + rewrite length_replace_nth. auto.
    + rewrite (length_remove_nth _ _ _ Hnth). split; [reflexivity | lia].
  - destruct (nth_error (inflight s) i) as [[|ok]|] eqn:Hnth; try discriminate.
    injection Hstep as <-. left. simpl.
    rewrite (length_remove_nth _ _ _ Hnth). split; [reflexivity | lia].
Qed.

Lemma run_requests (events : list Event) :
  forall s s',
    run events s = Some s' ->
    Forall chat_request (fetched s) ->
    length (inflight s) <= length (fetched s) ->
    Forall chat_request (fetched s')
    /\ length (fetched s') <= length (fetched s) + length (filter is_submission events)
    /\ length (inflight s') <= length (fetched s')
    /\ exists later, fetched s' = (fetched s ++ later)%list.
Proof.
  induction events as [|e events IH]; intros s s' Hrun Hall Hle; simpl in Hrun.
  - injection Hrun as <-. repeat split; auto; [simpl; lia|].
    exists []. now rewrite app_nil_r.
  - destruct (step e s) as [s1|] eqn:Hstep; [|discriminate].
    destruct (step_requests _ _ _ Hstep)
      as [[Hf Hi] | (Hsub & request & Hreq & Hf & Hi)].
    + destruct (IH s1 s' Hrun) as (Hall' & Hlen & Hin & later & Hlater).
      { rewrite Hf. exact Hall. }
      { rewrite Hf. lia. }
      rewrite Hf in *. repeat split; auto.
      * simpl. destruct (is_submission e); simpl; lia.
      * eauto.
    + destruct (IH s1 s' Hrun) as (Hall' & Hlen & Hin & later & Hlater).
      { rewrite Hf. apply Forall_app. auto. }
      { rewrite Hf, Hi, !length_app. simpl. lia. }
      rewrite Hf in *. repeat split; auto.
      * simpl. rewrite Hsub. rewrite length_app in Hlen. simpl in *. lia.
      * exists (request :: later). rewrite Hlater, <- app_assoc. reflexivity.
Qed.

(** X15.  On every run of the event loop, every request ever passed to
    [fetch] is a POST to the chat endpoint with a JSON body naming a
    non-empty video and a non-empty question; there are no more requests
    than submissions (nothing is sent again after a failure, and nothing
    by a reconciliation), and every suspended call has sent its request. *)
Theorem requests_are_chat_requests (page : Panel) (events : list Event) (s : System) :
  run events (start page) = Some s ->
  Forall chat_request (fetched s)
  /\ length (fetched s) <= length (filter is_submission events)
  /\ length (inflight s) <= length (fetched s).
Proof.
  intro Hrun.
  destruct (run_requests events (start page) s Hrun) as (Hall & Hlen & Hin & _).
  - constructor.
  - simpl. lia.
  - auto.
Qed.

Lemma requests_are_chat_requests_witness :
  exists s,
    run (switch_during_request ++ ask_again) (start page0) = Some s
    /\ length (fetched s) = 2
    /\ Forall chat_request (fetched s).
Proof.
  eexists. split; [vm_compute; reflexivity|]. split; [reflexivity|].
  apply (requests_are_chat_requests page0 (switch_during_request ++ ask_again)).
  vm_compute. reflexivity.
Defined.

(** X16.  Reconciliations are counted: along a run of the event loop, the
    reconciliations run and those still waiting for [chrome.tabs.query] add
    up to those that were waiting at its beginning (one, when the panel
    opens) plus one for every tab activation and one for every update of
    the active tab that is complete; nothing else calls
    [connectToCurrentTab]. *)
Theorem reconciliations_are_triggered (events : list Event) (s s' : System) :
  run events s = Some s' ->
  length (filter is_reconciliation events) + queries s'
  = queries s + length (filter is_trigger events).
Proof.
  revert s s'. induction events as [|e events IH]; intros s s' Hrun; simpl in Hrun.
  - injection Hrun as <-. simpl. lia.
  - destruct (step e s) as [s1|] eqn:Hstep; [|discriminate].
    specialize (IH s1 s' Hrun).
    destruct e as [status active| |tab|value| |key|i response|i json];
      simpl in Hstep; simpl.
    + destruct status as [st|]; [destruct ((st =? "complete") && active)|];
        injection Hstep as <-; simpl in *; lia.
    + injection Hstep as <-. simpl in *. lia.
    + destruct (queries s) as [|n]; [discriminate|]. injection Hstep as <-.
      simpl in *. lia.
    + destruct (inputEl_disabled (panel s)); [discriminate|]. injection Hstep as <-.
      simpl in *. lia.
    + destruct (sendBtn_disabled (panel s)); [discriminate|]. injection Hstep as <-.
      unfold call_handleSend in IH.
      destruct (handleSend_begin (panel s)) as [[[request|]|] p]; simpl in *; lia.
    + destruct (inputEl_disabled (panel s)); [discriminate|].
      destruct (key =? "Enter"); injection Hstep as <-; [|lia].
      unfold call_handleSend in IH.
      destruct (handleSend_begin (panel s)) as [[[request|]|] p]; simpl in *; lia.
    + destruct (nth_error (inflight s) i) as [[|ok]|]; try discriminate.
      destruct response as [ok|]; injection Hstep as <-; simpl in *; lia.
    + destruct (nth_error (inflight s) i) as [[|ok]|]; try discriminate.
      injection Hstep as <-. simpl in *. lia.
Qed.

Lemma reconciliations_are_triggered_witness :
  exists s,
    run switch_during_request (start page0) = Some s
    /\ queries s = 0
    /\ length (filter is_reconciliation switch_during_request) + queries s
       = queries (start page0) + length (filter is_trigger switch_during_request).
Proof.
  eexists. split; [vm_compute; reflexivity|]. split; [reflexivity|].
  apply (reconciliations_are_triggered switch_during_request (start page0)).
  vm_compute. reflexivity.
Defined.

(** X17.  Only a reconciliation changes the session: a click, a key, typed
    text, a tab event and the settling of a request all leave the current
    video and the status line as they are. *)
Theorem session_changes_by_reconciliation_only (e : Event) (s s' : System) :
  step e s = Some s' ->
  is_reconciliation e = false ->
  session (panel s') = session (panel s).
Proof.
  intros Hstep Hrec.
  destruct (step_panel_cases _ _ _ Hstep)
    as [E | [(tab & -> & _) | [(value & E) | [(_ & E) | (outcome & E)]]]].
  - now rewrite E.
  - discriminate.
  - rewrite E. reflexivity.
  - rewrite E.
    destruct (begin_panel_cases (panel s)) as [F | (videoId & [Hcur _] & _ & F)];
      rewrite F; [reflexivity|]. unfold session. simpl. now rewrite Hcur.
  - rewrite E.
    destruct (settle_answered outcome (panel s)) as (text & history & F & _).
    rewrite F. reflexivity.
Qed.

Lemma session_changes_by_reconciliation_only_witness :
  exists s s',
    run ask_once (start page0) = Some s
    /\ step (FetchSettled 0 Throw) s = Some s'
    /\ is_reconciliation (FetchSettled 0 Throw) = false
    /\ session (panel s') = session (panel s)
    /\ session (panel s) = (Some "abc123", "Connected", "status connected").
Proof.
  do 2 eexists. split; [vm_compute; reflexivity|].
  match goal with
  | |- step ?e ?s = Some ?s' /\ _ =>
      assert (Hstep : step e s = Some s') by (vm_compute; reflexivity)
  end.
  split; [exact Hstep|]. split; [reflexivity|].
  split; [|reflexivity].
  apply (session_changes_by_reconciliation_only _ _ _ Hstep). reflexivity.
Defined.




Lemma answer_after_disconnect_enables_controls_witness :
  let q := state_after (handleSend_settle tutorial_answer)
             (state_after (handleDisconnect "Not YouTube")
                (snd (handleSend_begin (asked "Why?")))) in
  let s := {| panel := set_inputEl_value "And?" q;
              queries := 0; inflight := []; fetched := [] |} in
  Disconnected q "Not YouTube"
  /\ controls_enabled q
  /\ panel s = set_inputEl_value "And?" q
  /\ step SendClicked s = Some s.
Proof.
  intros q s.
  destruct (answer_after_disconnect_enables_controls "Not YouTube" tutorial_answer
              (snd (handleSend_begin (asked "Why?")))) as (Hd & Hctl & _ & Hnoop).
  split; [exact Hd|]. split; [exact Hctl|]. split; [reflexivity|].
  change (step SendClicked s) with (Some (call_handleSend s)).
  now rewrite (Hnoop "And?" s eq_refl).
Defined.
